(** * TransparentImageViewer: navigation hook, favourites store, selection
    handlers and image colour analysis, embedded from the TypeScript sources.

    - [ColorAnalysis]  : utils/colorAnalysis   (analyzeImage)
    - [FileSystem]     : hooks/useFileSystem   (the navigation hook)
    - [AppStore]       : store/useAppStore     (favourite directories)
    - [App]            : App.tsx               (selection and breadcrumb handlers)

    JavaScript numbers are IEEE-754 binary64 values; the analyser is embedded
    over Rocq's primitive floats, which compute with the same semantics. *)

From Stdlib Require Import ZArith List String Ascii Bool Lia Permutation.
From Stdlib Require Import Floats Uint63.
From Stdlib Require Sorted.
Import ListNotations.

(** ** JavaScript completions shared by the modules *)

(** The completion of a call that may throw: [err.message] is what the
    handlers read from a caught exception. *)
Inductive Completion (A : Type) : Type :=
| Returned (a : A)
| Thrown (message : string).
Arguments Returned {A} a.
Arguments Thrown {A} message.

(** A settled promise. *)
Inductive Promise (A : Type) : Type :=
| Resolved (a : A)
| Rejected (reason : string).
Arguments Resolved {A} a.
Arguments Rejected {A} reason.

(** * utils/colorAnalysis *)
Module ColorAnalysis.

Local Open Scope float_scope.

(** One RGBA pixel of [ImageData.data]: four consecutive entries of the
    [Uint8ClampedArray], each in 0..255. *)
Record Pixel : Type := mkPixel { red : Z; green : Z; blue : Z; alpha : Z }.

Inductive Background : Type := dark | light | checkerboard.

Record ImageAnalysisResult : Type := mkResult {
  hasTransparency : bool;
  isDark : bool;
  suggestedBackground : Background;
  averageLuminance : float
}.

(** Integers of the source become numbers (exact below 2^53). *)
Definition num (z : Z) : float := PrimFloat.of_uint63 (Uint63.of_Z z).

Definition MAX_SIZE : float := 100.

(** [Math.min] on two arguments: NaN is contagious and -0 is below +0. *)
Definition Math_min (x y : float) : float :=
  if is_nan x || is_nan y then nan
  else if x <? y then x
  else if y <? x then y
  else if get_sign x then x else y.

(** Lines 30-37: the drawing size, [img.width] x [img.height] scaled so that
    neither side exceeds [MAX_SIZE].  Nothing rounds the scaled sides. *)
Definition scaledSize (imgWidth imgHeight : Z) : float * float :=
  let width := num imgWidth in
  let height := num imgHeight in
  if (MAX_SIZE <? width) || (MAX_SIZE <? height) then
    let ratio := Math_min (MAX_SIZE / width) (MAX_SIZE / height) in
    (width * ratio, height * ratio)
  else (width, height).

(** The three accumulators of the pixel loop. *)
Record Tally : Type := mkTally {
  totalLuminance : float;
  opaquePixelCount : Z;
  transparentPixelCount : Z
}.

Definition tally0 : Tally := mkTally 0 0 0.

(** 0.299, 0.587, 0.114 and 0.05 as the binary64 values the literals denote. *)
Definition c299 : float := 0x1.322d0e5604189p-2.
Definition c587 : float := 0x1.2c8b439581062p-1.
Definition c114 : float := 0x1.d2f1a9fbe76c9p-4.
Definition c005 : float := 0x1.999999999999ap-5.

Definition luminance (p : Pixel) : float :=
  c299 * num (red p) + c587 * num (green p) + c114 * num (blue p).

(** Lines 51-64: the body of the loop for one pixel. *)
Definition step (t : Tally) (p : Pixel) : Tally :=
  if (alpha p <? 10)%Z then
    mkTally (totalLuminance t) (opaquePixelCount t) (transparentPixelCount t + 1)
  else
    mkTally (totalLuminance t + luminance p) (opaquePixelCount t + 1)
            (transparentPixelCount t).

(** Lines 46-65: the loop over [data], four entries at a time. *)
Definition scan (data : list Pixel) : Tally := fold_left step data tally0.

(** Lines 70-73. *)
Definition averageOf (t : Tally) : float :=
  if (0 <? opaquePixelCount t)%Z
  then totalLuminance t / num (opaquePixelCount t)
  else 0.

(** Lines 78-92. *)
Definition suggest (hasTransparency isDark : bool) : Background :=
  if hasTransparency then (if isDark then light else dark) else checkerboard.

(** Lines 67-99: from the drawing size and the tally to the result. *)
Definition classify (width height : float) (t : Tally) : ImageAnalysisResult :=
  let totalPixels := width * height in
  let hasTransparency := totalPixels * c005 <? num (transparentPixelCount t) in
  let averageLuminance := averageOf t in
  let isDark := averageLuminance <? 128 in
  mkResult hasTransparency isDark (suggest hasTransparency isDark) averageLuminance.

(** What the browser hands to [img.onload]: whether a 2d context could be
    acquired, the image's intrinsic size, and [getImageData] on the canvas
    after drawing at the given size (it may throw). *)
Record Canvas : Type := mkCanvas {
  hasContext : bool;
  imgWidth : Z;
  imgHeight : Z;
  getImageData : float -> float -> Completion (list Pixel)
}.

(** Lines 18-104: the [onload] handler. *)
Definition onload (c : Canvas) : Promise ImageAnalysisResult :=
  if negb (hasContext c) then Rejected "Could not get canvas context"%string
  else
    let '(width, height) := scaledSize (imgWidth c) (imgHeight c) in
    match getImageData c width height with
    | Thrown e => Rejected e
    | Returned data => Resolved (classify width height (scan data))
    end.

(** Lines 12-108: [img.onerror] rejects, [img.onload] runs the handler. *)
Definition analyzeImage (src : Completion Canvas) : Promise ImageAnalysisResult :=
  match src with
  | Thrown e => Rejected e
  | Returned c => onload c
  end.

(** Number of pixels of a raster that count as transparent. *)
Definition transparentCount (data : list Pixel) : Z :=
  Z.of_nat (List.length (filter (fun p => (alpha p <? 10)%Z) data)).

(** A canvas whose raster is [data] whatever size is asked for. *)
Definition canvasOf (w h : Z) (data : list Pixel) : Canvas :=
  mkCanvas true w h (fun _ _ => Returned data).

(** [p] on the machine integers [from], [from + 1], ..., [upto], at most
    [fuel] of them. *)
Fixpoint forInts (fuel : nat) (from upto : int) (p : int -> bool) : bool :=
  match fuel with
  | O => true
  | S m => if (upto <? from)%uint63 then true
           else p from && forInts m (from + 1)%uint63 upto p
  end.

Definition clearPx : Pixel := mkPixel 0 0 0 0.
Definition whitePx : Pixel := mkPixel 255 255 255 255.

(** A 150 x 100 source: drawn at 100 x 66.67, the canvas (whose sides are
    integers, fractions truncated) holds 100 x 66 = 6600 pixels.  Here 331 of
    them are fully transparent and the rest opaque white. *)
Definition raster150x100 : list Pixel :=
  repeat clearPx (Z.to_nat 331) ++ repeat whitePx (Z.to_nat 6269).

End ColorAnalysis.

(** ** Helpers standing for the JavaScript built-ins the sources call *)

(** [bind] for calls inside a [try] block: the first throw ends the block. *)
Definition bind {A B : Type} (c : Completion A) (k : A -> Completion B) : Completion B :=
  match c with
  | Returned a => k a
  | Thrown e => Thrown e
  end.

Notation "x <- c ;; k" := (bind c (fun x => k))
  (at level 61, c at next level, right associativity).

(** [Array.prototype.sort] with a comparator: a stable sort (ECMAScript 2019),
    written as a stable insertion sort.  [cmp a b <= 0] keeps [a] first. *)
Section Sort.
Context {A : Type}.
Variable cmp : A -> A -> Z.

Fixpoint insert (x : A) (l : list A) : list A :=
  match l with
  | [] => [x]
  | y :: l' => if (cmp x y <=? 0)%Z then x :: l else y :: insert x l'
  end.

Fixpoint sort (l : list A) : list A :=
  match l with
  | [] => []
  | x :: l' => insert x (sort l')
  end.

(** [Array.prototype.findIndex]: the first index whose element satisfies
    [f], or -1. *)
Fixpoint findIndexFrom (f : A -> bool) (l : list A) (i : Z) : Z :=
  match l with
  | [] => (-1)%Z
  | x :: l' => if f x then i else findIndexFrom f l' (i + 1)%Z
  end.

Definition findIndex (f : A -> bool) (l : list A) : Z := findIndexFrom f l 0%Z.

(** [arr[i]] for a number [i]: [undefined] (here [None]) out of range. *)
Definition at_index (l : list A) (i : Z) : option A :=
  if (i <? 0)%Z then None else nth_error l (Z.to_nat i).

(** [arr[i] = f(arr[i])] on a copy, for an index inside the array. *)
Fixpoint mapAt (f : A -> A) (l : list A) (i : nat) : list A :=
  match l, i with
  | [], _ => []
  | x :: l', O => f x :: l'
  | x :: l', S i' => x :: mapAt f l' i'
  end.

End Sort.

(** * hooks/useFileSystem *)
Module FileSystem.

Local Open Scope string_scope.

(** Handles are opaque browser objects with a [name]; [dirId] and
    [fileId] stand for object identity. *)
Record FileSystemDirectoryHandle : Type := mkDir { dirName : string; dirId : nat }.
Record FileSystemFileHandle : Type := mkFileHandle { fileHandleName : string; fileId : nat }.

Inductive FileType : Type := image | other.

(** [url?] is never set by the hook and is left out. *)
Record FileSystemFile : Type := mkFile {
  fileName : string;
  fileHandle : FileSystemFileHandle;
  fileType : FileType
}.

Record FileSystemFolder : Type := mkFolder {
  folderName : string;
  folderHandle : FileSystemDirectoryHandle
}.

(** What [handle.values()] yields: [entry.kind] is 'file' or 'directory'. *)
Inductive Entry : Type :=
| FileEntry (h : FileSystemFileHandle)
| DirectoryEntry (h : FileSystemDirectoryHandle).

Inductive PermissionState : Type := granted | denied | prompt.

(** The File System Access API as the hook uses it.  [values] is the whole
    asynchronous iteration: it either yields every entry or throws. *)
Record Platform : Type := mkPlatform {
  queryPermission : FileSystemDirectoryHandle -> Completion PermissionState;
  requestPermission : FileSystemDirectoryHandle -> Completion PermissionState;
  values : FileSystemDirectoryHandle -> Completion (list Entry);
  localeCompare : string -> string -> Z
}.

Definition IMAGE_EXTENSIONS : list string :=
  ["png"; "jpg"; "jpeg"; "webp"; "svg"; "gif"; "avif"; "bmp"].

(** [name.split('.').pop()]: what follows the last dot, the whole name when
    it has none. *)
Fixpoint lastSegment (acc s : string) : string :=
  match s with
  | EmptyString => acc
  | String c s' =>
      if Ascii.eqb c "."%char then lastSegment EmptyString s'
      else lastSegment (acc ++ String c EmptyString) s'
  end.

(** [toLowerCase] on the letters that can make an extension match. *)
Definition lowerChar (c : ascii) : ascii :=
  let n := nat_of_ascii c in
  if (65 <=? n)%nat && (n <=? 90)%nat then ascii_of_nat (n + 32) else c.

Fixpoint toLowerCase (s : string) : string :=
  match s with
  | EmptyString => EmptyString
  | String c s' => String (lowerChar c) (toLowerCase s')
  end.

Definition includes (l : list string) (x : string) : bool :=
  existsb (String.eqb x) l.

(** Line 279: [ext && IMAGE_EXTENSIONS.includes(ext)]. *)
Definition isImageName (name : string) : bool :=
  let ext := toLowerCase (lastSegment EmptyString name) in
  negb (String.eqb ext EmptyString) && includes IMAGE_EXTENSIONS ext.

(** The hook's React state, with the lines written to [console.error]. *)
Record State : Type := mkState {
  currentDirectoryHandle : option FileSystemDirectoryHandle;
  directoryStack : list FileSystemDirectoryHandle;
  files : list FileSystemFile;
  folders : list FileSystemFolder;
  isLoading : bool;
  error : option string;
  console : list string
}.

Definition initial : State := mkState None [] [] [] false None [].

(** The state setters. *)
Definition setCurrentDirectoryHandle (h : FileSystemDirectoryHandle) (s : State) : State :=
  mkState (Some h) (directoryStack s) (files s) (folders s) (isLoading s) (error s) (console s).
Definition setDirectoryStack (k : list FileSystemDirectoryHandle) (s : State) : State :=
  mkState (currentDirectoryHandle s) k (files s) (folders s) (isLoading s) (error s) (console s).
Definition setFiles (l : list FileSystemFile) (s : State) : State :=
  mkState (currentDirectoryHandle s) (directoryStack s) l (folders s) (isLoading s) (error s) (console s).
Definition setFolders (l : list FileSystemFolder) (s : State) : State :=
  mkState (currentDirectoryHandle s) (directoryStack s) (files s) l (isLoading s) (error s) (console s).
Definition setIsLoading (b : bool) (s : State) : State :=
  mkState (currentDirectoryHandle s) (directoryStack s) (files s) (folders s) b (error s) (console s).
Definition setError (e : option string) (s : State) : State :=
  mkState (currentDirectoryHandle s) (directoryStack s) (files s) (folders s) (isLoading s) e (console s).
Definition consoleError (line : string) (s : State) : State :=
  mkState (currentDirectoryHandle s) (directoryStack s) (files s) (folders s) (isLoading s) (error s)
          (console s ++ [line])%list.

(** Lines 264-270: query, then request, read permission. *)
Definition verifyPermission (P : Platform) (h : FileSystemDirectoryHandle) : Completion unit :=
  permission <- queryPermission P h ;;
  match permission with
  | granted => Returned tt
  | _ =>
      request <- requestPermission P h ;;
      match request with
      | granted => Returned tt
      | _ => Thrown "Permission denied"
      end
  end.

(** Lines 273-292: one pass over the entries, images and folders kept in
    the order met. *)
Fixpoint collect (es : list Entry) : list FileSystemFile * list FileSystemFolder :=
  match es with
  | [] => ([], [])
  | FileEntry fh :: es' =>
      let '(fs, ds) := collect es' in
      let name := fileHandleName fh in
      if isImageName name then (mkFile name fh image :: fs, ds) else (fs, ds)
  | DirectoryEntry dh :: es' =>
      let '(fs, ds) := collect es' in
      (fs, mkFolder (dirName dh) dh :: ds)
  end.

(** Lines 262-296: the [try] block up to the three setters. *)
Definition readDirectory (P : Platform) (h : FileSystemDirectoryHandle)
  : Completion (list FileSystemFile * list FileSystemFolder) :=
  _ <- verifyPermission P h ;;
  es <- values P h ;;
  let '(newFiles, newFolders) := collect es in
  Returned (sort (fun a b => localeCompare P (fileName a) (fileName b)) newFiles,
            sort (fun a b => localeCompare P (folderName a) (folderName b)) newFolders).

(** Line 304: [err.message || "Failed to read directory"]. *)
Definition messageOr (message fallback : string) : string :=
  if String.eqb message EmptyString then fallback else message.

(** Lines 256-308. *)
Definition loadFilesFromDirectory (P : Platform) (h : FileSystemDirectoryHandle)
  (s : State) : State :=
  let s := setError None (setIsLoading true s) in
  let s :=
    match readDirectory P h with
    | Returned (newFiles, newFolders) =>
        setCurrentDirectoryHandle h (setFolders newFolders (setFiles newFiles s))
    | Thrown message =>
        setError (Some (messageOr message "Failed to read directory"))
                 (consoleError "Error reading directory:" s)
    end in
  setIsLoading false s.

(** The settlement of [window.showDirectoryPicker]. *)
Inductive Picked : Type :=
| PickedDirectory (h : FileSystemDirectoryHandle)
| AbortError
| OtherError.

(** Lines 310-326. *)
Definition openDirectory (P : Platform) (picked : Picked) (s : State)
  : State * option FileSystemDirectoryHandle :=
  match picked with
  | PickedDirectory h => (loadFilesFromDirectory P h (setDirectoryStack [] s), Some h)
  | AbortError => (s, None)
  | OtherError =>
      (setError (Some "Failed to open directory") (consoleError "Error opening directory:" s), None)
  end.

(** Lines 328-331. *)
Definition openDirectoryWithHandle (P : Platform) (h : FileSystemDirectoryHandle)
  (s : State) : State :=
  loadFilesFromDirectory P h (setDirectoryStack [] s).

(** Lines 333-342.  The callback reads [currentDirectoryHandle] of the
    render it was created in; handlers run one at a time, each on the state
    of the latest render. *)
Definition navigateToDirectory (P : Platform) (folder : FileSystemFolder)
  (resetStack : bool) (s : State) : State :=
  let s :=
    if resetStack then setDirectoryStack [] s
    else match currentDirectoryHandle s with
         | Some current => setDirectoryStack (directoryStack s ++ [current])%list s
         | None => s
         end in
  loadFilesFromDirectory P (folderHandle folder) s.

(** Lines 344-352: [directoryStack[length - 1]] and [slice(0, -1)]. *)
Definition navigateUp (P : Platform) (s : State) : State :=
  match directoryStack s with
  | [] => s
  | top :: _ =>
      let parent := last (directoryStack s) top in
      let newStack := removelast (directoryStack s) in
      loadFilesFromDirectory P parent (setDirectoryStack newStack s)
  end.

Definition canNavigateUp (s : State) : bool :=
  match directoryStack s with [] => false | _ => true end.

(** Line 377: the breadcrumb path. *)
Definition path (s : State) : list FileSystemDirectoryHandle :=
  (directoryStack s ++ match currentDirectoryHandle s with Some h => [h] | None => [] end)%list.

End FileSystem.

(** * store/useAppStore *)
Module AppStore.

Import FileSystem.
Local Open Scope string_scope.

Record FavoriteDirectory : Type := mkFavorite {
  name : string;
  handle : FileSystemDirectoryHandle;
  addedAt : Z
}.

(** The zustand state. *)
Record State : Type := mkState {
  currentDirectoryHandle : option FileSystemDirectoryHandle;
  files : list FileSystemFile;
  favoriteDirectories : list FavoriteDirectory;
  isLoading : bool
}.

(** idb-keyval: the value kept under [FAVORITES_KEY], and the error its
    next operation throws, if it is to fail. *)
Record Backend : Type := mkBackend {
  stored : option (list FavoriteDirectory);
  failure : option string
}.

Definition idbSet (b : Backend) (v : list FavoriteDirectory) : Completion Backend :=
  match failure b with
  | Some e => Thrown e
  | None => Returned (mkBackend (Some v) None)
  end.

Definition idbGet (b : Backend) : Completion (option (list FavoriteDirectory)) :=
  match failure b with
  | Some e => Thrown e
  | None => Returned (stored b)
  end.

(** The store with what it acts on: the backend and the console. *)
Record World : Type := mkWorld {
  state : State;
  backend : Backend;
  console : list string
}.

Definition initial (b : Backend) : World := mkWorld (mkState None [] [] false) b [].

Definition setFavorites (l : list FavoriteDirectory) (w : World) : World :=
  let s := state w in
  mkWorld (mkState (currentDirectoryHandle s) (files s) l (isLoading s)) (backend w) (console w).
Definition setBackend (b : Backend) (w : World) : World :=
  mkWorld (state w) b (console w).
Definition consoleError (line : string) (w : World) : World :=
  mkWorld (state w) (backend w) (console w ++ [line])%list.

(** Lines 141-143 and 226. *)
Definition setCurrentDirectory (h : FileSystemDirectoryHandle) (fs : list FileSystemFile)
  (w : World) : World :=
  let s := state w in
  mkWorld (mkState (Some h) fs (favoriteDirectories s) (isLoading s)) (backend w) (console w).
Definition setLoading (loading : bool) (w : World) : World :=
  let s := state w in
  mkWorld (mkState (currentDirectoryHandle s) (files s) (favoriteDirectories s) loading)
          (backend w) (console w).

(** The comparator [(a, b) => b.addedAt - a.addedAt]. *)
Definition newestFirst (a b : FavoriteDirectory) : Z := addedAt b - addedAt a.

Definition named (n : string) (d : FavoriteDirectory) : bool := String.eqb (name d) n.

(** Lines 171-175 and 201-205: the write inside [try]/[catch]. *)
Definition saveGuarded (v : list FavoriteDirectory) (w : World) : World * Promise unit :=
  match idbSet (backend w) v with
  | Returned b => (setBackend b w, Resolved tt)
  | Thrown _ => (consoleError "Failed to save favorite directories" w, Resolved tt)
  end.

(** Lines 146-167: the favourites after an upsert of [h]; [now] is what
    [Date.now()] returns. *)
Definition upserted (now : Z) (h : FileSystemDirectoryHandle)
  (favs : list FavoriteDirectory) : list FavoriteDirectory :=
  let existingIndex := findIndex (named (dirName h)) favs in
  let newFavorites :=
    if (0 <=? existingIndex)%Z
    then mapAt (fun d => mkFavorite (name d) (handle d) now) favs (Z.to_nat existingIndex)
    else (favs ++ [mkFavorite (dirName h) h now])%list in
  sort newestFirst newFavorites.

(** Lines 145-176. *)
Definition addFavoriteDirectory (now : Z) (h : FileSystemDirectoryHandle) (w : World)
  : World * Promise unit :=
  let newFavorites := upserted now h (favoriteDirectories (state w)) in
  saveGuarded newFavorites (setFavorites newFavorites w).

(** Lines 179-197. *)
Definition toggled (now : Z) (h : FileSystemDirectoryHandle)
  (favs : list FavoriteDirectory) : list FavoriteDirectory :=
  let existingIndex := findIndex (named (dirName h)) favs in
  let newFavorites :=
    if (0 <=? existingIndex)%Z
    then filter (fun d => negb (named (dirName h) d)) favs
    else (favs ++ [mkFavorite (dirName h) h now])%list in
  sort newestFirst newFavorites.

(** Lines 178-206. *)
Definition toggleFavorite (now : Z) (h : FileSystemDirectoryHandle) (w : World)
  : World * Promise unit :=
  let newFavorites := toggled now h (favoriteDirectories (state w)) in
  saveGuarded newFavorites (setFavorites newFavorites w).

(** Lines 208-217. *)
Definition loadFavoriteDirectories (w : World) : World * Promise unit :=
  match idbGet (backend w) with
  | Returned (Some favorites) => (setFavorites favorites w, Resolved tt)
  | Returned None => (w, Resolved tt)
  | Thrown _ => (consoleError "Failed to load favorite directories" w, Resolved tt)
  end.

(** Line 221. *)
Definition removed (n : string) (favs : list FavoriteDirectory) : list FavoriteDirectory :=
  filter (fun d => negb (named n d)) favs.

(** Lines 219-224: the write is awaited outside any [try]. *)
Definition removeFavoriteDirectory (n : string) (w : World) : World * Promise unit :=
  let newFavorites := removed n (favoriteDirectories (state w)) in
  let w := setFavorites newFavorites w in
  match idbSet (backend w) newFavorites with
  | Returned b => (setBackend b w, Resolved tt)
  | Thrown e => (w, Rejected e)
  end.

End AppStore.

(** * App.tsx *)
Module App.

Import FileSystem.

(** The component's state: the hook, the store, and its own two pieces
    ([previewWidth] and [thumbnailSize] play no part in what follows). *)
Record State : Type := mkState {
  hook : FileSystem.State;
  store : AppStore.World;
  selectedFile : option FileSystemFile;
  isPreviewOpen : bool
}.

Definition initial (b : AppStore.Backend) : State :=
  mkState FileSystem.initial (AppStore.initial b) None false.

Definition setSelectedFile (f : option FileSystemFile) (a : State) : State :=
  mkState (hook a) (store a) f (isPreviewOpen a).
Definition setIsPreviewOpen (b : bool) (a : State) : State :=
  mkState (hook a) (store a) (selectedFile a) b.
Definition setHook (h : FileSystem.State) (a : State) : State :=
  mkState h (store a) (selectedFile a) (isPreviewOpen a).
Definition setStore (w : AppStore.World) (a : State) : State :=
  mkState (hook a) w (selectedFile a) (isPreviewOpen a).

(** Lines 36-38 and 52-56: the effects that copy the hook's state into the
    store after a render. *)
Definition effects (a : State) : State :=
  let w := AppStore.setLoading (FileSystem.isLoading (hook a)) (store a) in
  let w :=
    match FileSystem.currentDirectoryHandle (hook a) with
    | Some h => AppStore.setCurrentDirectory h (FileSystem.files (hook a)) w
    | None => w
    end in
  setStore w a.

(** [files: storeFiles] of line 18. *)
Definition storeFiles (a : State) : list FileSystemFile :=
  AppStore.files (AppStore.state (store a)).

Definition sameName (f g : FileSystemFile) : bool := String.eqb (fileName g) (fileName f).

(** Lines 86-92. *)
Definition handleNext (a : State) : State :=
  match selectedFile a with
  | None => a
  | Some sel =>
      let idx := findIndex (sameName sel) (storeFiles a) in
      if (idx <? Z.of_nat (List.length (storeFiles a)) - 1)%Z
      then setSelectedFile (at_index (storeFiles a) (idx + 1)) a
      else a
  end.

(** Lines 94-100. *)
Definition handlePrev (a : State) : State :=
  match selectedFile a with
  | None => a
  | Some sel =>
      let idx := findIndex (sameName sel) (storeFiles a) in
      if (0 <? idx)%Z
      then setSelectedFile (at_index (storeFiles a) (idx - 1)) a
      else a
  end.

(** Lines 102-110. *)
Definition handleImageClick (file : FileSystemFile) (a : State) : State :=
  match selectedFile a with
  | Some sel =>
      if String.eqb (fileName sel) (fileName file) then setIsPreviewOpen true a
      else setIsPreviewOpen true (setSelectedFile (Some file) a)
  | None => setIsPreviewOpen true (setSelectedFile (Some file) a)
  end.

(** Lines 219-222: the preview's [onClose]. *)
Definition handleClose (a : State) : State :=
  setSelectedFile None (setIsPreviewOpen false a).

(** Lines 112-114. *)
Definition handleFolderClick (P : Platform) (folder : FileSystemFolder) (a : State) : State :=
  effects (setHook (navigateToDirectory P folder false (hook a)) a).

(** Lines 116-123. *)
Definition handleBreadcrumbNavigate (P : Platform) (h : FileSystemDirectoryHandle)
  (index : Z) (a : State) : State :=
  if (index =? Z.of_nat (List.length (path (hook a))) - 1)%Z then a
  else effects (setHook (navigateToDirectory P (mkFolder (dirName h) h) true (hook a)) a).

(** Line 132: the Back button. *)
Definition handleBack (P : Platform) (a : State) : State :=
  effects (setHook (navigateUp P (hook a)) a).

(** Lines 65-70. *)
Definition handleOpenPicker (P : Platform) (picked : Picked) (now : Z) (a : State) : State :=
  let '(h, opened) := openDirectory P picked (hook a) in
  let a := effects (setHook h a) in
  match opened with
  | Some dir => setStore (fst (AppStore.addFavoriteDirectory now dir (store a))) a
  | None => a
  end.

(** Lines 72-75. *)
Definition handleOpenHistory (P : Platform) (h : FileSystemDirectoryHandle) (a : State) : State :=
  effects (setHook (openDirectoryWithHandle P h (hook a)) a).

(** The navigation transitions the user can trigger. *)
Inductive Transition : Type :=
| OpenPicker (picked : Picked) (now : Z)
| OpenHistory (h : FileSystemDirectoryHandle)
| Enter (folder : FileSystemFolder)
| Up
| Jump (h : FileSystemDirectoryHandle) (index : Z).

Definition navigate (P : Platform) (t : Transition) (a : State) : State :=
  match t with
  | OpenPicker picked now => handleOpenPicker P picked now a
  | OpenHistory h => handleOpenHistory P h a
  | Enter folder => handleFolderClick P folder a
  | Up => handleBack P a
  | Jump h index => handleBreadcrumbNavigate P h index a
  end.

(** The directory a transition is about to list, if it lists one. *)
Definition target (t : Transition) (a : State) : option FileSystemDirectoryHandle :=
  match t with
  | OpenPicker (PickedDirectory h) _ => Some h
  | OpenPicker _ _ => None
  | OpenHistory h => Some h
  | Enter folder => Some (folderHandle folder)
  | Up => match directoryStack (hook a) with
          | [] => None
          | top :: _ => Some (last (directoryStack (hook a)) top)
          end
  | Jump h index =>
      if (index =? Z.of_nat (List.length (path (hook a))) - 1)%Z then None else Some h
  end.

(** A transition succeeds when it lists a directory and the listing goes
    through; it fails when the permission check or the listing throws. *)
Definition succeeds (P : Platform) (t : Transition) (a : State) : bool :=
  match target t a with
  | Some h => match readDirectory P h with Returned _ => true | Thrown _ => false end
  | None => false
  end.

Definition fails (P : Platform) (t : Transition) (a : State) : bool :=
  match target t a with
  | Some h => match readDirectory P h with Returned _ => false | Thrown _ => true end
  | None => false
  end.

(** The stack a transition has installed when its load begins (lines 316,
    329, 336, 339 and 350). *)
Definition stackBeforeLoad (t : Transition) (s : FileSystem.State)
  : list FileSystemDirectoryHandle :=
  match t with
  | OpenPicker _ _ | OpenHistory _ | Jump _ _ => []
  | Enter _ =>
      match currentDirectoryHandle s with
      | Some current => directoryStack s ++ [current]
      | None => directoryStack s
      end
  | Up => removelast (directoryStack s)
  end.

(** Opening a root, by the picker or from the history list. *)
Definition opensRoot (t : Transition) (A : FileSystemDirectoryHandle) : Prop :=
  t = OpenHistory A \/ exists now, t = OpenPicker (PickedDirectory A) now.

(** The store's copy of the listing is the hook's listing. *)
Definition mirrored (a : State) : Prop :=
  storeFiles a = FileSystem.files (hook a).

End App.

(** * A small file tree used to run the definitions *)
Module Demo.

Import FileSystem.
Local Open Scope string_scope.

(** photos/ holds a.png, B.JPG, notes.txt and the folders trip/, locked/ and
    gone/; trip/ holds another a.png and the folder raw/; raw/ holds c.gif.
    Reading locked/ is refused, listing gone/ throws. *)
Definition photos : FileSystemDirectoryHandle := mkDir "photos" 1.
Definition trip : FileSystemDirectoryHandle := mkDir "trip" 2.
Definition raw : FileSystemDirectoryHandle := mkDir "raw" 3.
Definition locked : FileSystemDirectoryHandle := mkDir "locked" 4.
Definition gone : FileSystemDirectoryHandle := mkDir "gone" 5.

Definition aPng : FileSystemFileHandle := mkFileHandle "a.png" 10.
Definition bJpg : FileSystemFileHandle := mkFileHandle "B.JPG" 11.
Definition notes : FileSystemFileHandle := mkFileHandle "notes.txt" 12.
Definition tripAPng : FileSystemFileHandle := mkFileHandle "a.png" 20.
Definition cGif : FileSystemFileHandle := mkFileHandle "c.gif" 30.

(** A stand-in for [localeCompare] with [sensitivity: 'base']: code-point
    order on the lower-cased names. *)
Definition compareNames (a b : string) : Z :=
  match String.compare (toLowerCase a) (toLowerCase b) with
  | Lt => (-1)%Z
  | Eq => 0%Z
  | Gt => 1%Z
  end.

Definition entries (h : FileSystemDirectoryHandle) : Completion (list Entry) :=
  match dirId h with
  | 1%nat => Returned [FileEntry bJpg; DirectoryEntry trip; FileEntry notes;
                       DirectoryEntry locked; FileEntry aPng; DirectoryEntry gone]
  | 2%nat => Returned [DirectoryEntry raw; FileEntry tripAPng]
  | 3%nat => Returned [FileEntry cGif]
  | _ => Thrown "NotFoundError"
  end.

Definition platform : Platform :=
  mkPlatform
    (fun h => Returned (if Nat.eqb (dirId h) 4 then prompt else granted))
    (fun h => Returned (if Nat.eqb (dirId h) 4 then denied else granted))
    entries
    compareNames.

(** The same tree after the user revoked every permission. *)
Definition revoked : Platform :=
  mkPlatform (fun _ => Returned prompt) (fun _ => Returned denied) entries compareNames.

Definition folderOf (h : FileSystemDirectoryHandle) : FileSystemFolder :=
  mkFolder (dirName h) h.

Definition healthy : AppStore.Backend := AppStore.mkBackend None None.
Definition quotaExceeded : AppStore.Backend :=
  AppStore.mkBackend None (Some "QuotaExceededError").

(** photos/ opened from the history list. *)
Definition atPhotos : App.State :=
  App.navigate platform (App.OpenHistory photos) (App.initial healthy).

(** ... then a.png of photos/ clicked. *)
Definition previewing : App.State :=
  App.handleImageClick (mkFile "a.png" aPng image) atPhotos.

(** ... then trip/ entered. *)
Definition atTrip : App.State :=
  App.navigate platform (App.Enter (folderOf trip)) atPhotos.

(** a.png of photos/ still selected after trip/ and then raw/ were entered. *)
Definition staleInRaw : App.State :=
  App.navigate platform (App.Enter (folderOf raw))
    (App.navigate platform (App.Enter (folderOf trip)) previewing).

(** A store holding two favourites, newest first. *)
Definition twoFavorites (b : AppStore.Backend) : AppStore.World :=
  AppStore.mkWorld
    (AppStore.mkState None []
       [AppStore.mkFavorite "trip" trip 200; AppStore.mkFavorite "photos" photos 100] false)
    b [].

End Demo.

(** * File names *)
Module Names.

(** Whether a name contains a dot. *)
Fixpoint hasDot (s : string) : bool :=
  match s with
  | EmptyString => false
  | String c s' => Ascii.eqb c "."%char || hasDot s'
  end.

End Names.

(** * components/Breadcrumbs *)
Module Breadcrumbs.

Import FileSystem.

(** Lines 17-26: nothing is rendered for an empty path; the Home button
    calls [onNavigate(path[0].handle, 0)]. *)
Definition clickHome (P : Platform) (a : App.State) : App.State :=
  match path (App.hook a) with
  | [] => a
  | root :: _ => App.handleBreadcrumbNavigate P root 0 a
  end.

(** Lines 28-41: the button of segment [index]; the last one is disabled
    and its handler does nothing. *)
Definition clickSegment (P : Platform) (index : nat) (a : App.State) : App.State :=
  match nth_error (path (App.hook a)) index with
  | None => a
  | Some item =>
      if Nat.eqb index (List.length (path (App.hook a)) - 1) then a
      else App.handleBreadcrumbNavigate P item (Z.of_nat index) a
  end.

End Breadcrumbs.

(** * components/PreviewPanel *)
Module PreviewPanel.

Import FileSystem.
Local Open Scope string_scope.

(** ['auto' | 'dark' | 'light' | 'checkerboard']. *)
Inductive BgMode : Type :=
| auto
| fixed (b : ColorAnalysis.Background).

(** Line 98: the background mode [getBgStyle] switches on. *)
Definition mode (bgMode : BgMode) (analysis : option ColorAnalysis.ImageAnalysisResult)
  : ColorAnalysis.Background :=
  match bgMode with
  | auto =>
      match analysis with
      | Some r => ColorAnalysis.suggestedBackground r
      | None => ColorAnalysis.checkerboard
      end
  | fixed b => b
  end.

(** Lines 33-79: [analysis] once the effect for a file has run its course.
    It is reset to null; [getFile] may throw (caught and logged), and only a
    resolved analysis is stored. *)
Definition analysisAfterLoad (file : Completion (Completion ColorAnalysis.Canvas))
  : option ColorAnalysis.ImageAnalysisResult :=
  match file with
  | Thrown _ => None
  | Returned src =>
      match ColorAnalysis.analyzeImage src with
      | Resolved r => Some r
      | Rejected _ => None
      end
  end.

(** Lines 82-92, with the panel mounted only while the preview is open
    (App.tsx line 188) and [file], [onClose], [onNext], [onPrev] as App.tsx
    passes them. *)
Definition handleKeyDown (key : string) (a : App.State) : App.State :=
  if negb (App.isPreviewOpen a) then a
  else
    match App.selectedFile a with
    | None => if String.eqb key "Escape" then App.handleClose a else a
    | Some _ =>
        let a := if String.eqb key "Escape" then App.handleClose a else a in
        let a := if String.eqb key "ArrowLeft" then App.handlePrev a else a in
        if String.eqb key "ArrowRight" then App.handleNext a else a
    end.

End PreviewPanel.

(** * components/Sidebar *)
Module Sidebar.

Import FileSystem.

(** Line 32: a click on an entry dispatches OPEN_HISTORY with its handle. *)
Definition clickEntry (P : Platform) (dir : AppStore.FavoriteDirectory) (a : App.State)
  : App.State :=
  App.handleOpenHistory P (AppStore.handle dir) a.

(** Lines 39-42: the remove button; the promise is not awaited. *)
Definition clickRemove (dir : AppStore.FavoriteDirectory) (a : App.State) : App.State :=
  App.setStore (fst (AppStore.removeFavoriteDirectory (AppStore.name dir) (App.store a))) a.

(** Line 28: the entry shown as current. *)
Definition isCurrent (dir : AppStore.FavoriteDirectory) (a : App.State) : bool :=
  match AppStore.currentDirectoryHandle (AppStore.state (App.store a)) with
  | Some h => String.eqb (dirName h) (AppStore.name dir)
  | None => false
  end.

End Sidebar.

(** * A session: the events the user and the environment can produce *)
Module Session.

Import FileSystem.

Inductive Event : Type :=
| Navigate (P : Platform) (t : App.Transition)
| ImageClick (file : FileSystemFile)
| Next
| Prev
| ClosePreview
| KeyDown (key : string)
| ToggleFavorite (now : Z)
| RemoveFavorite (dir : AppStore.FavoriteDirectory)
| BackendMode (failure : option string).

(** App.tsx line 144: the star of the breadcrumb bar, present only with a
    current directory. *)
Definition toggleCurrent (now : Z) (a : App.State) : App.State :=
  match currentDirectoryHandle (App.hook a) with
  | Some h => App.setStore (fst (AppStore.toggleFavorite now h (App.store a))) a
  | None => a
  end.

(** The backend starts or stops failing. *)
Definition setFailure (failure : option string) (a : App.State) : App.State :=
  let w := App.store a in
  App.setStore
    (AppStore.setBackend (AppStore.mkBackend (AppStore.stored (AppStore.backend w)) failure) w) a.

Definition dispatch (e : Event) (a : App.State) : App.State :=
  match e with
  | Navigate P t => App.navigate P t a
  | ImageClick file => App.handleImageClick file a
  | Next => App.handleNext a
  | Prev => App.handlePrev a
  | ClosePreview => App.handleClose a
  | KeyDown key => PreviewPanel.handleKeyDown key a
  | ToggleFavorite now => toggleCurrent now a
  | RemoveFavorite dir => Sidebar.clickRemove dir a
  | BackendMode failure => setFailure failure a
  end.

(** App.tsx lines 59-61: the favourites are loaded on mount. *)
Definition mounted (b : AppStore.Backend) : App.State :=
  let a := App.initial b in
  App.setStore (fst (AppStore.loadFavoriteDirectories (App.store a))) a.

Definition run (events : list Event) (a : App.State) : App.State :=
  fold_left (fun a e => dispatch e a) events a.

(** The part of the invariant below that concerns the hook alone. *)
Definition hookSettled (s : FileSystem.State) : Prop :=
  isLoading s = false /\
  (currentDirectoryHandle s = None ->
   directoryStack s = [] /\ files s = [] /\ folders s = []) /\
  Forall (fun f => fileType f = image /\ isImageName (fileName f) = true) (files s).

(** What every state of a session satisfies. *)
Record Invariant (a : App.State) : Prop := mkInvariant {
  inv_mirrored : App.mirrored a;
  inv_directory :
    AppStore.currentDirectoryHandle (AppStore.state (App.store a)) =
    currentDirectoryHandle (App.hook a);
  inv_idle : isLoading (App.hook a) = false;
  inv_root : currentDirectoryHandle (App.hook a) = None ->
             directoryStack (App.hook a) = [] /\
             files (App.hook a) = [] /\ folders (App.hook a) = [];
  inv_images : Forall (fun f => fileType f = image /\ isImageName (fileName f) = true)
                      (files (App.hook a));
  inv_preview : App.isPreviewOpen a = true <-> App.selectedFile a <> None
}.

(** Newest first, one entry per name. *)
Definition tidy (l : list AppStore.FavoriteDirectory) : Prop :=
  Sorted.StronglySorted (fun x y => (AppStore.addedAt y <= AppStore.addedAt x)%Z) l /\
  NoDup (map AppStore.name l).

(** The favourites shown and the favourites stored are both tidy. *)
Definition tidyStore (w : AppStore.World) : Prop :=
  tidy (AppStore.favoriteDirectories (AppStore.state w)) /\
  match AppStore.stored (AppStore.backend w) with
  | Some v => tidy v
  | None => True
  end.

End Session.

(** * More of the sample tree *)
Module Samples.

Import FileSystem.

(** The tree of [Demo] with names ordered by length. *)
Definition byLength (a b : string) : Z :=
  Z.of_nat (String.length a) - Z.of_nat (String.length b).

Definition platform : Platform :=
  mkPlatform (queryPermission Demo.platform) (requestPermission Demo.platform)
             Demo.entries byLength.

(** A 4 x 4 image with no transparent pixel, and one with nothing else. *)
Definition opaque4x4 : ColorAnalysis.Canvas :=
  ColorAnalysis.canvasOf 4 4 (repeat ColorAnalysis.whitePx 16).
Definition clear4x4 : ColorAnalysis.Canvas :=
  ColorAnalysis.canvasOf 4 4 (repeat ColorAnalysis.clearPx 16).

(** What the backend of a returning user holds. *)
Definition returning : AppStore.Backend :=
  AppStore.mkBackend
    (Some [AppStore.mkFavorite "trip" Demo.trip 200; AppStore.mkFavorite "photos" Demo.photos 100])
    None.

(** A session: pick raw/, star it off, lose the backend, remove "trip". *)
Definition events : list Session.Event :=
  [Session.Navigate Demo.platform (App.OpenPicker (PickedDirectory Demo.raw) 300);
   Session.ToggleFavorite 400;
   Session.BackendMode (Some "QuotaExceededError"%string);
   Session.RemoveFavorite (AppStore.mkFavorite "trip" Demo.trip 200)].

End Samples.

(** * The colour analyser: threshold, background policy, empty images *)
Section ColorAnalysisFacts.

Import ColorAnalysis.
Local Open Scope float_scope.

(** Fully transparent pixels leave the luminance sum and the opaque count
    where they were. *)
Lemma fold_step_transparent (data : list Pixel) (t : Tally) :
  (forall p, In p data -> (alpha p < 10)%Z) ->
  fold_left step data t =
  mkTally (totalLuminance t) (opaquePixelCount t)
          (transparentPixelCount t + Z.of_nat (List.length data)).
Proof.
  revert t.
  induction data as [|p data IH]; intros t Hall.
  - destruct t; cbn. now rewrite Z.add_0_r.
  - cbn [fold_left].
    rewrite IH by (intros q Hq; apply Hall; now right).
    unfold step.
    assert (Hp : (alpha p <? 10)%Z = true)
      by (apply Z.ltb_lt, Hall; now left).
    rewrite Hp. cbn [totalLuminance opaquePixelCount transparentPixelCount List.length].
    f_equal. lia.
Qed.

(** Every resolved analysis went through [classify]. *)
Lemma analyzeImage_resolved (src : Completion Canvas) (r : ImageAnalysisResult) :
  analyzeImage src = Resolved r ->
  exists width height t, r = classify width height t.
Proof.
  destruct src as [c|e]; cbn [analyzeImage]; [|discriminate].
  unfold onload.
  destruct (negb (hasContext c)); [discriminate|].
  destruct (scaledSize (imgWidth c) (imgHeight c)) as [width height].
  destruct (getImageData c width height) as [data|e]; [|discriminate].
  intros [= <-]. now exists width, height, (scan data).
Qed.

(** The loop's two counters are the numbers of transparent and of
    opaque pixels of the raster. *)
Lemma fold_step_counts (data : list Pixel) (t : Tally) :
  transparentPixelCount (fold_left step data t) =
    (transparentPixelCount t + transparentCount data)%Z /\
  opaquePixelCount (fold_left step data t) =
    (opaquePixelCount t + (Z.of_nat (List.length data) - transparentCount data))%Z.
Proof.
  revert t. unfold transparentCount.
  induction data as [|p data IH]; intros t.
  - cbn. lia.
  - cbn [fold_left filter List.length]. destruct (IH (step t p)) as [-> ->].
    unfold step. destruct (alpha p <? 10)%Z; cbn [transparentPixelCount opaquePixelCount List.length]; lia.
Qed.

Lemma scan_counts (data : list Pixel) :
  transparentPixelCount (scan data) = transparentCount data /\
  opaquePixelCount (scan data) = (Z.of_nat (List.length data) - transparentCount data)%Z.
Proof.
  unfold scan. destruct (fold_step_counts data tally0) as [-> ->]. cbn. lia.
Qed.

(** What the analysis compares: the number of transparent pixels of the
    raster against 0.05 times the product of the two sides of the drawing
    size, as numbers. *)
Lemma hasTransparency_threshold (c : Canvas) (data : list Pixel) (r : ImageAnalysisResult) :
  getImageData c (fst (scaledSize (imgWidth c) (imgHeight c)))
                 (snd (scaledSize (imgWidth c) (imgHeight c))) = Returned data ->
  analyzeImage (Returned c) = Resolved r ->
  hasTransparency r =
  (fst (scaledSize (imgWidth c) (imgHeight c)) * snd (scaledSize (imgWidth c) (imgHeight c)) * c005
     <? num (transparentCount data)).
Proof.
  cbn [analyzeImage]. unfold onload.
  destruct (negb (hasContext c)); [discriminate|].
  destruct (scaledSize (imgWidth c) (imgHeight c)) as [width height]. cbn [fst snd].
  intros ->. intros [= <-].
  unfold classify. cbn [hasTransparency].
  now destruct (scan_counts data) as [-> _].
Qed.

Lemma to_Z_of_Z_small (z : Z) :
  (0 <= z < 2 ^ 62)%Z -> Uint63.to_Z (Uint63.of_Z z) = z.
Proof.
  intros Hz. rewrite Uint63.of_Z_spec. apply Z.mod_small.
  assert (Hw : Uint63.wB = (2 * 2 ^ 62)%Z) by reflexivity. lia.
Qed.

Lemma forInts_spec (fuel : nat) (upto : int) (p : int -> bool) (from : int) :
  forInts fuel from upto p = true ->
  forall z, (Uint63.to_Z from <= z <= Uint63.to_Z upto)%Z ->
            (z - Uint63.to_Z from < Z.of_nat fuel)%Z ->
            p (Uint63.of_Z z) = true.
Proof.
  revert from. induction fuel as [|m IH]; intros from Hall z Hz Hfuel; [lia|].
  cbn [forInts] in Hall.
  destruct (Uint63.ltbP upto from) as [Hlt|Hge]; [lia|].
  apply andb_prop in Hall. destruct Hall as [Hfrom Hrest].
  destruct (Z.eq_dec z (Uint63.to_Z from)) as [->|Hne].
  - now rewrite Uint63.of_to_Z.
  - assert (Hnext : Uint63.to_Z (from + 1)%uint63 = (Uint63.to_Z from + 1)%Z).
    { rewrite Uint63.add_spec, Uint63.to_Z_1. apply Z.mod_small.
      pose proof (Uint63.to_Z_bounded upto). pose proof (Uint63.to_Z_bounded from). lia. }
    apply (IH (from + 1)%uint63 Hrest); lia.
Qed.

(** Every image that needs no scaling, with every possible number [k] of
    transparent pixels: the sides are not above [MAX_SIZE], and the
    comparison of line 68 agrees with [w * h < 20 * k].  Checked by running
    the 25 million cases on machine integers. *)
Lemma threshold_table :
  let fuel := Z.to_nat 10001 in
  forInts fuel 0 100 (fun w =>
    negb (MAX_SIZE <? PrimFloat.of_uint63 w) &&
    forInts fuel 0 100 (fun h =>
      let t := PrimFloat.of_uint63 w * PrimFloat.of_uint63 h * c005 in
      let n := (w * h)%uint63 in
      forInts fuel 0 n (fun k =>
        Bool.eqb (t <? PrimFloat.of_uint63 k) (n <? 20 * k)%uint63))) = true.
Proof. vm_cast_no_check (eq_refl true). Qed.

Ltac forInts_at H z :=
  match type of H with
  | forInts ?fuel ?from ?upto ?p = true =>
      let H' := fresh H in
      assert (H' : p (Uint63.of_Z z) = true);
      [ apply (forInts_spec fuel upto p from H z); clear H | cbv beta zeta in H'; clear H; rename H' into H ]
  end.

Lemma threshold_table_spec (w h k : Z) :
  (0 <= w <= 100)%Z -> (0 <= h <= 100)%Z -> (0 <= k <= w * h)%Z ->
  (MAX_SIZE <? num w) = false /\
  (num w * num h * c005 <? num k) = (w * h <? 20 * k)%Z.
Proof.
  intros Hw Hh Hk.
  assert (Hwh : (0 <= w * h <= 10000)%Z) by nia.
  assert (H100 : Uint63.to_Z 100 = 100%Z) by reflexivity.
  assert (H20 : Uint63.to_Z 20 = 20%Z) by reflexivity.
  assert (Hprod : Uint63.to_Z (Uint63.of_Z w * Uint63.of_Z h)%uint63 = (w * h)%Z).
  { rewrite Uint63.mul_spec, !to_Z_of_Z_small by lia. apply Z.mod_small.
    assert (Hwb : Uint63.wB = (2 * 2 ^ 62)%Z) by reflexivity. lia. }
  assert (Hscaled : Uint63.to_Z (20 * Uint63.of_Z k)%uint63 = (20 * k)%Z).
  { rewrite Uint63.mul_spec, H20, to_Z_of_Z_small by lia. apply Z.mod_small.
    assert (Hwb : Uint63.wB = (2 * 2 ^ 62)%Z) by reflexivity. lia. }
  pose proof threshold_table as H. cbv zeta in H.
  forInts_at H w; [rewrite Uint63.to_Z_0, H100; lia|rewrite Uint63.to_Z_0; lia|].
  apply andb_prop in H. destruct H as [Hside H].
  split; [now apply negb_true_iff in Hside|].
  forInts_at H h; [rewrite Uint63.to_Z_0, H100; lia|rewrite Uint63.to_Z_0; lia|].
  forInts_at H k; [rewrite Uint63.to_Z_0, Hprod; lia|rewrite Uint63.to_Z_0; lia|].
  apply eqb_prop in H. unfold num. rewrite H.
  destruct (Uint63.ltbP (Uint63.of_Z w * Uint63.of_Z h)%uint63 (20 * Uint63.of_Z k)%uint63) as [Hlt|Hge];
    rewrite Hprod, Hscaled in *; symmetry; [apply Z.ltb_lt|apply Z.ltb_ge]; lia.
Qed.

(** An image no larger than 100 x 100 is analysed at its own size. *)
Lemma scaledSize_small (w h : Z) :
  (0 <= w <= 100)%Z -> (0 <= h <= 100)%Z -> scaledSize w h = (num w, num h).
Proof.
  intros Hw Hh. unfold scaledSize.
  destruct (threshold_table_spec w 0 0 Hw ltac:(lia) ltac:(lia)) as [-> _].
  destruct (threshold_table_spec h 0 0 Hh ltac:(lia) ltac:(lia)) as [-> _].
  reflexivity.
Qed.

(** Where nothing is scaled the strict 5% rule holds: for an image of at
    most 100 x 100 whose raster has one pixel per image pixel,
    [hasTransparency] is true exactly when the transparent pixels are
    strictly more than 5% of the raster. *)
Lemma hasTransparency_unscaled (c : Canvas) (data : list Pixel) (r : ImageAnalysisResult) :
  (0 <= imgWidth c <= 100)%Z -> (0 <= imgHeight c <= 100)%Z ->
  getImageData c (num (imgWidth c)) (num (imgHeight c)) = Returned data ->
  Z.of_nat (List.length data) = (imgWidth c * imgHeight c)%Z ->
  analyzeImage (Returned c) = Resolved r ->
  hasTransparency r = true <-> (20 * transparentCount data > Z.of_nat (List.length data))%Z.
Proof.
  intros Hw Hh Hdata Hlen Hres.
  assert (Hcount : (0 <= transparentCount data <= imgWidth c * imgHeight c)%Z).
  { unfold transparentCount. rewrite <- Hlen.
    split; [lia|]. apply inj_le, filter_length_le. }
  destruct (threshold_table_spec _ _ _ Hw Hh Hcount) as [_ Hagree].
  rewrite (hasTransparency_threshold c data r); rewrite ?(scaledSize_small _ _ Hw Hh);
    cbn [fst snd]; try assumption.
  rewrite Hagree, Hlen, Z.ltb_lt. lia.
Qed.

(** The suggestion is a function of the two flags of the same result. *)
Lemma classify_suggest (width height : float) (t : Tally) :
  suggestedBackground (classify width height t) =
  suggest (hasTransparency (classify width height t)) (isDark (classify width height t)).
Proof. reflexivity. Qed.

(** C4, at a downscaled image.  A 150 x 100 source is drawn at
    100 x 66.666..., so [totalPixels] is 6666.67 while the raster read back
    has 100 x 66 = 6600 pixels.  With 331 transparent pixels (5.015% of the
    raster, above 5%) the threshold 333.33 is not reached and
    [hasTransparency] is false. *)
Theorem hasTransparency_downscaled_fraction :
  let data := raster150x100 in
  let '(width, height) := scaledSize 150 100 in
  width = 100 /\ (66 <? height) = true /\ (height <? 67) = true /\
  Z.of_nat (List.length data) = (100 * 66)%Z /\
  transparentCount data = 331%Z /\
  (20 * transparentCount data > Z.of_nat (List.length data))%Z /\
  analyzeImage (Returned (canvasOf 150 100 data)) =
    Resolved (mkResult false false checkerboard 255).
Proof.
  vm_compute. repeat split; reflexivity.
Qed.

(** Where the drawing size is integral the strict 5% boundary is met: a
    10 x 10 raster with 5 transparent pixels has no transparency, one with
    6 has; likewise 500 and 501 of 100 x 100. *)
Example hasTransparency_boundary_10x10 :
  analyzeImage (Returned (canvasOf 10 10 (repeat clearPx 5 ++ repeat whitePx 95))) =
    Resolved (mkResult false false checkerboard 255) /\
  analyzeImage (Returned (canvasOf 10 10 (repeat clearPx 6 ++ repeat whitePx 94))) =
    Resolved (mkResult true false dark 255).
Proof. split; vm_compute; reflexivity. Qed.

Example hasTransparency_boundary_100x100 :
  (exists r, analyzeImage (Returned (canvasOf 100 100
      (repeat clearPx (Z.to_nat 500) ++ repeat whitePx (Z.to_nat 9500)))) = Resolved r
      /\ hasTransparency r = false) /\
  (exists r, analyzeImage (Returned (canvasOf 100 100
      (repeat clearPx (Z.to_nat 501) ++ repeat whitePx (Z.to_nat 9499)))) = Resolved r
      /\ hasTransparency r = true).
Proof. split; eexists; split; vm_compute; reflexivity. Qed.

(** C5.  Whatever the image, a resolved analysis suggests [checkerboard]
    without transparency, [light] for a dark transparent image and [dark] for
    a light transparent one; exactly one of the three cases applies. *)
Theorem suggestedBackground_policy (src : Completion Canvas) (r : ImageAnalysisResult) :
  analyzeImage src = Resolved r ->
  (hasTransparency r = false -> suggestedBackground r = checkerboard) /\
  (hasTransparency r = true -> isDark r = true -> suggestedBackground r = light) /\
  (hasTransparency r = true -> isDark r = false -> suggestedBackground r = dark) /\
  ((hasTransparency r = false /\ suggestedBackground r <> light /\ suggestedBackground r <> dark)
   \/ (hasTransparency r = true /\ isDark r = true /\ suggestedBackground r <> checkerboard
       /\ suggestedBackground r <> dark)
   \/ (hasTransparency r = true /\ isDark r = false /\ suggestedBackground r <> checkerboard
       /\ suggestedBackground r <> light)).
Proof.
  intros Hres.
  destruct (analyzeImage_resolved _ _ Hres) as (width & height & t & ->).
  rewrite classify_suggest. unfold suggest.
  destruct (hasTransparency (classify width height t)),
           (isDark (classify width height t));
    (split; [|split; [|split]]); try (intros; (reflexivity || discriminate)).
  - right; left. repeat split; discriminate.
  - right; right. repeat split; discriminate.
  - left. repeat split; discriminate.
  - left. repeat split; discriminate.
Qed.

Lemma suggestedBackground_policy_witness :
  let src := Returned (canvasOf 10 10 (repeat clearPx 6 ++ repeat whitePx 94)) in
  let r := mkResult true false dark 255 in
  analyzeImage src = Resolved r /\
  (hasTransparency r = true -> isDark r = false -> suggestedBackground r = dark).
Proof.
  split.
  - vm_compute; reflexivity.
  - apply (suggestedBackground_policy
             (Returned (canvasOf 10 10 (repeat clearPx 6 ++ repeat whitePx 94)))).
    vm_compute; reflexivity.
Defined.

(** C7.  When every pixel of the raster has alpha below 10, the analysis
    resolves with [averageLuminance] 0: the opaque count is 0, the guard of
    line 71 is not taken and no division happens. *)
Theorem fully_transparent_average (c : Canvas) (data : list Pixel) :
  hasContext c = true ->
  (let '(width, height) := scaledSize (imgWidth c) (imgHeight c) in
   getImageData c width height = Returned data) ->
  (forall p, In p data -> (alpha p < 10)%Z) ->
  opaquePixelCount (scan data) = 0%Z /\
  (0 <? opaquePixelCount (scan data))%Z = false /\
  exists r, analyzeImage (Returned c) = Resolved r /\ averageLuminance r = 0.
Proof.
  intros Hctx Hdata Hall.
  assert (Hscan : scan data = mkTally 0 0 (Z.of_nat (List.length data))).
  { unfold scan. now rewrite fold_step_transparent. }
  rewrite Hscan. cbn [opaquePixelCount].
  split; [reflexivity|]. split; [reflexivity|].
  cbn [analyzeImage]. unfold onload. rewrite Hctx. cbn [negb].
  destruct (scaledSize (imgWidth c) (imgHeight c)) as [width height].
  rewrite Hdata, Hscan.
  eexists. split; [reflexivity|].
  reflexivity.
Qed.

Lemma fully_transparent_average_witness :
  let c := canvasOf 3 2 (repeat clearPx 6) in
  hasContext c = true /\
  exists r, analyzeImage (Returned c) = Resolved r /\ averageLuminance r = 0.
Proof.
  split; [reflexivity|].
  apply (fully_transparent_average (canvasOf 3 2 (repeat clearPx 6)) (repeat clearPx 6)).
  - reflexivity.
  - reflexivity.
  - intros p Hp. apply repeat_spec in Hp. subst p. cbn. lia.
Defined.

End ColorAnalysisFacts.

(** * The navigation hook: what a load commits, and when *)
Section NavigationFacts.

Import FileSystem.
Variable P : Platform.

(** A load that goes through commits the listing and the handle; the
    stack is not its business. *)
Lemma load_success (h : FileSystemDirectoryHandle) (s : State)
  (newFiles : list FileSystemFile) (newFolders : list FileSystemFolder) :
  readDirectory P h = Returned (newFiles, newFolders) ->
  loadFilesFromDirectory P h s =
  mkState (Some h) (directoryStack s) newFiles newFolders false None (console s).
Proof.
  intros H. unfold loadFilesFromDirectory. now rewrite H.
Qed.

(** A load that throws keeps handle, stack and listing of the state it
    was given, records the error and logs one line. *)
Lemma load_failure (h : FileSystemDirectoryHandle) (s : State) (message : string) :
  readDirectory P h = Thrown message ->
  loadFilesFromDirectory P h s =
  mkState (currentDirectoryHandle s) (directoryStack s) (files s) (folders s) false
          (Some (messageOr message "Failed to read directory"))
          (console s ++ ["Error reading directory:"%string]).
Proof.
  intros H. unfold loadFilesFromDirectory. now rewrite H.
Qed.

(** The stack after a load is the stack before it, whatever happened. *)
Lemma load_stack (h : FileSystemDirectoryHandle) (s : State) :
  directoryStack (loadFilesFromDirectory P h s) = directoryStack s.
Proof.
  unfold loadFilesFromDirectory.
  destruct (readDirectory P h) as [[newFiles newFolders]|message]; reflexivity.
Qed.

(** The effects touch the store only. *)
Lemma hook_effects (a : App.State) : App.hook (App.effects a) = App.hook a.
Proof. reflexivity. Qed.

Lemma selection_effects (a : App.State) :
  App.selectedFile (App.effects a) = App.selectedFile a /\
  App.isPreviewOpen (App.effects a) = App.isPreviewOpen a.
Proof. split; reflexivity. Qed.

(** The hook's state after each transition. *)
Lemma hook_navigate (t : App.Transition) (a : App.State) :
  App.hook (App.navigate P t a) =
  match t with
  | App.OpenPicker picked _ => fst (openDirectory P picked (App.hook a))
  | App.OpenHistory h => openDirectoryWithHandle P h (App.hook a)
  | App.Enter folder => navigateToDirectory P folder false (App.hook a)
  | App.Up => navigateUp P (App.hook a)
  | App.Jump h index =>
      if (index =? Z.of_nat (List.length (path (App.hook a))) - 1)%Z then App.hook a
      else navigateToDirectory P (mkFolder (dirName h) h) true (App.hook a)
  end.
Proof.
  destruct t as [picked now|h|folder| |h index]; cbn [App.navigate]; try reflexivity.
  - unfold App.handleOpenPicker.
    destruct (openDirectory P picked (App.hook a)) as [s [dir|]]; reflexivity.
  - unfold App.handleBreadcrumbNavigate.
    destruct (index =? Z.of_nat (List.length (path (App.hook a))) - 1)%Z; reflexivity.
Qed.

(** The hook's state when the transition's listing fails: everything is
    as before except the error, the log line, and the stack, which the
    transition had already rewritten when the load began. *)
Lemma failed_transition (t : App.Transition) (a : App.State) :
  App.fails P t a = true ->
  let s := App.hook a in
  let s' := App.hook (App.navigate P t a) in
  currentDirectoryHandle s' = currentDirectoryHandle s /\
  files s' = files s /\
  folders s' = folders s /\
  directoryStack s' = App.stackBeforeLoad t s /\
  error s' <> None.
Proof.
  intros Hfail. cbv zeta. unfold App.fails in Hfail.
  rewrite hook_navigate.
  destruct t as [picked now|h|folder| |h index]; cbn [App.target] in Hfail.
  - destruct picked as [h| |]; try discriminate.
    destruct (readDirectory P h) as [r|message] eqn:Hr; [discriminate|].
    cbn [openDirectory fst]. rewrite (load_failure _ _ _ Hr). cbn.
    repeat split; discriminate.
  - destruct (readDirectory P h) as [r|message] eqn:Hr; [discriminate|].
    unfold openDirectoryWithHandle. rewrite (load_failure _ _ _ Hr). cbn.
    repeat split; discriminate.
  - destruct (readDirectory P (folderHandle folder)) as [r|message] eqn:Hr; [discriminate|].
    unfold navigateToDirectory. rewrite (load_failure _ _ _ Hr).
    destruct (currentDirectoryHandle (App.hook a)) eqn:Hc; cbn; rewrite ?Hc;
      repeat split; discriminate.
  - unfold navigateUp.
    destruct (directoryStack (App.hook a)) as [|top rest] eqn:Hs; [discriminate|].
    destruct (readDirectory P (last (top :: rest) top)) as [r|message] eqn:Hr; [discriminate|].
    rewrite (load_failure _ _ _ Hr). cbn [App.stackBeforeLoad]. rewrite Hs.
    repeat split; discriminate.
  - destruct (index =? Z.of_nat (List.length (path (App.hook a))) - 1)%Z; [discriminate|].
    cbn [folderHandle] in *.
    destruct (readDirectory P h) as [r|message] eqn:Hr; [discriminate|].
    unfold navigateToDirectory. cbn [folderHandle]. rewrite (load_failure _ _ _ Hr). cbn.
    repeat split; discriminate.
Qed.

(** The hook's state when the transition's listing goes through. *)
Lemma successful_transition (t : App.Transition) (a : App.State) :
  App.succeeds P t a = true ->
  exists h newFiles newFolders,
    App.target t a = Some h /\
    readDirectory P h = Returned (newFiles, newFolders) /\
    App.hook (App.navigate P t a) =
    mkState (Some h) (App.stackBeforeLoad t (App.hook a)) newFiles newFolders false None
            (console (App.hook a)).
Proof.
  unfold App.succeeds. intros Hok.
  destruct (App.target t a) as [h|] eqn:Ht; [|discriminate].
  destruct (readDirectory P h) as [[newFiles newFolders]|message] eqn:Hr; [|discriminate].
  exists h, newFiles, newFolders. split; [reflexivity|]. split; [exact Hr|].
  rewrite hook_navigate.
  destruct t as [picked now|h'|folder| |h' index]; cbn [App.target] in Ht.
  - destruct picked as [h'| |]; try discriminate. injection Ht as ->.
    cbn [openDirectory fst]. now rewrite (load_success _ _ _ _ Hr).
  - injection Ht as ->. unfold openDirectoryWithHandle. now rewrite (load_success _ _ _ _ Hr).
  - injection Ht as Ht. unfold navigateToDirectory. rewrite Ht, (load_success _ _ _ _ Hr).
    cbn [App.stackBeforeLoad]. now destruct (currentDirectoryHandle (App.hook a)).
  - unfold navigateUp.
    destruct (directoryStack (App.hook a)) as [|top rest] eqn:Hs; [discriminate|].
    assert (Hlast : last (top :: rest) top = h) by congruence.
    rewrite Hlast, (load_success _ _ _ _ Hr). cbn [App.stackBeforeLoad].
    now rewrite Hs.
  - destruct (index =? Z.of_nat (List.length (path (App.hook a))) - 1)%Z; [discriminate|].
    injection Ht as ->. unfold navigateToDirectory. cbn [folderHandle].
    now rewrite (load_success _ _ _ _ Hr).
Qed.

(** The store's copy of the listing, which the selection handlers read,
    is the hook's listing: true at the start and kept by every transition. *)
Lemma load_without_directory (h : FileSystemDirectoryHandle) (s : State) :
  currentDirectoryHandle (loadFilesFromDirectory P h s) = None ->
  files (loadFilesFromDirectory P h s) = files s.
Proof.
  unfold loadFilesFromDirectory.
  destruct (readDirectory P h) as [[newFiles newFolders]|message]; cbn; [discriminate|reflexivity].
Qed.

Lemma effects_mirrored (s : State) (a : App.State) :
  (currentDirectoryHandle s = None -> App.storeFiles a = files s) ->
  App.mirrored (App.effects (App.setHook s a)).
Proof.
  unfold App.mirrored, App.effects, App.storeFiles. cbn.
  destruct (currentDirectoryHandle s); cbn; [reflexivity|]. intros H. now apply H.
Qed.

Lemma navigate_mirrored (t : App.Transition) (a : App.State) :
  App.mirrored a -> App.mirrored (App.navigate P t a).
Proof.
  intros Ha.
  destruct t as [picked now|h|folder| |h index]; cbn [App.navigate].
  - unfold App.handleOpenPicker.
    destruct (openDirectory P picked (App.hook a)) as [s opened] eqn:Hopen.
    assert (Hs : App.mirrored (App.effects (App.setHook s a))).
    { apply effects_mirrored. intros Hnone. rewrite Ha.
      destruct picked as [h| |]; cbn [openDirectory] in Hopen; injection Hopen as <- <-.
      - now rewrite load_without_directory.
      - reflexivity.
      - reflexivity. }
    destruct opened as [dir|]; [|exact Hs].
    unfold App.mirrored, App.storeFiles in *. cbn [App.setStore App.store App.hook].
    unfold AppStore.addFavoriteDirectory, AppStore.saveGuarded.
    match goal with |- context [AppStore.idbSet ?b ?v] => destruct (AppStore.idbSet b v) end;
      exact Hs.
  - apply effects_mirrored. intros Hnone. rewrite Ha.
    unfold openDirectoryWithHandle in *. now rewrite load_without_directory.
  - apply effects_mirrored. intros Hnone. rewrite Ha.
    unfold navigateToDirectory in *. rewrite load_without_directory by exact Hnone.
    now destruct (currentDirectoryHandle (App.hook a)).
  - apply effects_mirrored. intros Hnone. rewrite Ha.
    unfold navigateUp in *. destruct (directoryStack (App.hook a)); [reflexivity|].
    now rewrite load_without_directory.
  - unfold App.handleBreadcrumbNavigate.
    destruct (index =? Z.of_nat (List.length (path (App.hook a))) - 1)%Z; [exact Ha|].
    apply effects_mirrored. intros Hnone. rewrite Ha.
    unfold navigateToDirectory in *. now rewrite load_without_directory.
Qed.

End NavigationFacts.

(** * Navigation: failure, selection, round trip, breadcrumb jump *)
Section NavigationClaims.

Import FileSystem.

(** C1, at two failing transitions.  In trip/ (reached from photos/, so the
    stack is [photos]) the user clicks the folder locked/, whose permission
    request is denied: handle and listing stay those of trip/, yet the
    stack has become [photos; trip].  Going up from trip/ after the
    permissions were revoked fails too, and leaves the stack empty. *)
Theorem failed_load_leaves_stack_rewritten :
  let a := Demo.atTrip in
  let entered := App.navigate Demo.platform (App.Enter (Demo.folderOf Demo.locked)) a in
  let upped := App.navigate Demo.revoked App.Up a in
  directoryStack (App.hook a) = [Demo.photos] /\
  App.fails Demo.platform (App.Enter (Demo.folderOf Demo.locked)) a = true /\
  currentDirectoryHandle (App.hook entered) = currentDirectoryHandle (App.hook a) /\
  files (App.hook entered) = files (App.hook a) /\
  folders (App.hook entered) = folders (App.hook a) /\
  error (App.hook entered) = Some "Permission denied"%string /\
  directoryStack (App.hook entered) = [Demo.photos; Demo.trip] /\
  App.fails Demo.revoked App.Up a = true /\
  currentDirectoryHandle (App.hook upped) = currentDirectoryHandle (App.hook a) /\
  files (App.hook upped) = files (App.hook a) /\
  folders (App.hook upped) = folders (App.hook a) /\
  directoryStack (App.hook upped) = [].
Proof.
  cbv zeta. repeat split; vm_compute; reflexivity.
Qed.

(** C2 fails: a.png of photos/ is being previewed when trip/, which holds
    its own a.png, is entered.  The listing is replaced, and the selection is
    still the file of photos/ with the preview open. *)
Lemma selection_survives_navigation :
  let a := Demo.previewing in
  let a' := App.navigate Demo.platform (App.Enter (Demo.folderOf Demo.trip)) a in
  App.succeeds Demo.platform (App.Enter (Demo.folderOf Demo.trip)) a = true /\
  files (App.hook a') = [mkFile "a.png" Demo.tripAPng image] /\
  App.selectedFile a' = Some (mkFile "a.png" Demo.aPng image) /\
  App.isPreviewOpen a' = true /\
  ~ In (mkFile "a.png" Demo.aPng image) (files (App.hook a')).
Proof.
  cbv zeta. repeat split; try (vm_compute; reflexivity).
  vm_compute. intros [H|[]]. discriminate H.
Qed.

(** C2 as the code has it.  No navigation transition, successful or not,
    touches the selection or the preview flag. *)
Theorem navigation_keeps_selection (P : Platform) (t : App.Transition) (a : App.State) :
  App.selectedFile (App.navigate P t a) = App.selectedFile a /\
  App.isPreviewOpen (App.navigate P t a) = App.isPreviewOpen a.
Proof.
  destruct t as [picked now|h|folder| |h index]; cbn [App.navigate].
  - unfold App.handleOpenPicker.
    destruct (openDirectory P picked (App.hook a)) as [s [dir|]]; split; reflexivity.
  - split; reflexivity.
  - split; reflexivity.
  - split; reflexivity.
  - unfold App.handleBreadcrumbNavigate.
    destruct (index =? Z.of_nat (List.length (path (App.hook a))) - 1)%Z; split; reflexivity.
Qed.

(** A store that already shows [h] with [fs], not loading, is left as it is
    by the effects of a render in the same directory. *)
Lemma effects_settled (s : State) (w : AppStore.World)
  (sel : option FileSystemFile) (open : bool) (h : FileSystemDirectoryHandle) :
  currentDirectoryHandle s = Some h ->
  isLoading s = false ->
  App.effects (App.mkState s w sel open) =
  App.mkState s (AppStore.setCurrentDirectory h (files s) (AppStore.setLoading false w)) sel open.
Proof.
  intros Hc Hl. unfold App.effects, App.setStore. cbn [App.hook App.store App.selectedFile App.isPreviewOpen].
  now rewrite Hc, Hl.
Qed.

(** What the store shows is overwritten by the next directory shown. *)
Lemma setCurrentDirectory_again (h h' : FileSystemDirectoryHandle)
  (fs fs' : list FileSystemFile) (w : AppStore.World) :
  AppStore.setCurrentDirectory h fs
    (AppStore.setLoading false (AppStore.setCurrentDirectory h' fs' (AppStore.setLoading false w))) =
  AppStore.setCurrentDirectory h fs (AppStore.setLoading false w).
Proof. reflexivity. Qed.

Lemma setCurrentDirectory_favorites (now : Z) (h dir : FileSystemDirectoryHandle)
  (fs : list FileSystemFile) (w : AppStore.World) :
  AppStore.setCurrentDirectory h fs
    (AppStore.setLoading false
       (fst (AppStore.addFavoriteDirectory now dir
               (AppStore.setCurrentDirectory h fs (AppStore.setLoading false w))))) =
  fst (AppStore.addFavoriteDirectory now dir
         (AppStore.setCurrentDirectory h fs (AppStore.setLoading false w))).
Proof.
  unfold AppStore.addFavoriteDirectory, AppStore.saveGuarded.
  match goal with |- context [AppStore.idbSet ?b ?v] => destruct (AppStore.idbSet b v) end;
    reflexivity.
Qed.

(** C6.  Open [A], enter [B], enter [C], go up twice, every listing going
    through: the hook is back at [A] with [A]'s listing and an empty stack,
    and the whole application state is the one right after opening [A]. *)
Theorem open_enter_enter_up_up (P : Platform) (a : App.State) (openA : App.Transition)
  (A : FileSystemDirectoryHandle) (B C : FileSystemFolder)
  (filesA filesB filesC : list FileSystemFile)
  (foldersA foldersB foldersC : list FileSystemFolder) :
  App.opensRoot openA A ->
  readDirectory P A = Returned (filesA, foldersA) ->
  readDirectory P (folderHandle B) = Returned (filesB, foldersB) ->
  readDirectory P (folderHandle C) = Returned (filesC, foldersC) ->
  let opened := App.navigate P openA a in
  let back :=
    App.navigate P App.Up
      (App.navigate P App.Up
         (App.navigate P (App.Enter C) (App.navigate P (App.Enter B) opened))) in
  currentDirectoryHandle (App.hook opened) = Some A /\
  files (App.hook opened) = filesA /\
  folders (App.hook opened) = foldersA /\
  directoryStack (App.hook opened) = [] /\
  currentDirectoryHandle (App.hook back) = Some A /\
  files (App.hook back) = filesA /\
  folders (App.hook back) = foldersA /\
  directoryStack (App.hook back) = [] /\
  back = opened.
Proof.
  intros Hopen HA HB HC. cbv zeta.
  assert (Hopened : exists w,
    App.navigate P openA a =
    App.mkState (mkState (Some A) [] filesA foldersA false None (console (App.hook a)))
                w (App.selectedFile a) (App.isPreviewOpen a) /\
    AppStore.setCurrentDirectory A filesA (AppStore.setLoading false w) = w).
  { destruct Hopen as [->|[now ->]]; cbn [App.navigate].
    - unfold App.handleOpenHistory, openDirectoryWithHandle.
      rewrite (load_success _ _ _ _ _ HA). cbn [directoryStack setDirectoryStack console].
      unfold App.setHook. rewrite (effects_settled _ _ _ _ A) by reflexivity.
      eexists. split; [reflexivity|]. reflexivity.
    - unfold App.handleOpenPicker. cbn [openDirectory].
      rewrite (load_success _ _ _ _ _ HA). cbn [directoryStack setDirectoryStack console].
      unfold App.setHook. rewrite (effects_settled _ _ _ _ A) by reflexivity.
      unfold App.setStore. cbn [App.hook App.store App.selectedFile App.isPreviewOpen files].
      eexists. split; [reflexivity|].
      apply setCurrentDirectory_favorites. }
  destruct Hopened as (w & -> & Hw).
  match goal with |- context [App.navigate P App.Up ?x = ?y] =>
    assert (Hback : App.navigate P App.Up x = y)
  end.
  { cbn [App.navigate].
    unfold App.handleFolderClick at 2, navigateToDirectory, App.setHook.
    cbn [App.hook App.store App.selectedFile App.isPreviewOpen currentDirectoryHandle].
    rewrite (load_success _ _ _ _ _ HB).
    cbn [directoryStack setDirectoryStack console app].
    rewrite (effects_settled _ _ _ _ (folderHandle B)) by reflexivity.
    unfold App.handleFolderClick, navigateToDirectory, App.setHook.
    cbn [App.hook App.store App.selectedFile App.isPreviewOpen currentDirectoryHandle].
    rewrite (load_success _ _ _ _ _ HC).
    cbn [directoryStack setDirectoryStack console app].
    rewrite (effects_settled _ _ _ _ (folderHandle C)) by reflexivity.
    unfold App.handleBack at 2, navigateUp, App.setHook.
    cbn [App.hook App.store App.selectedFile App.isPreviewOpen directoryStack last removelast].
    rewrite (load_success _ _ _ _ _ HB).
    cbn [directoryStack setDirectoryStack console].
    rewrite (effects_settled _ _ _ _ (folderHandle B)) by reflexivity.
    unfold App.handleBack, navigateUp, App.setHook.
    cbn [App.hook App.store App.selectedFile App.isPreviewOpen directoryStack last removelast].
    rewrite (load_success _ _ _ _ _ HA).
    cbn [directoryStack setDirectoryStack console].
    rewrite (effects_settled _ _ _ _ A) by reflexivity.
    cbn [files].
    rewrite !setCurrentDirectory_again. now rewrite Hw. }
  rewrite Hback.
  cbn [App.hook currentDirectoryHandle files folders directoryStack].
  repeat split; reflexivity.
Qed.

Lemma open_enter_enter_up_up_witness :
  let back :=
    App.navigate Demo.platform App.Up
      (App.navigate Demo.platform App.Up
         (App.navigate Demo.platform (App.Enter (Demo.folderOf Demo.raw)) Demo.atTrip)) in
  directoryStack (App.hook back) = [] /\ back = Demo.atPhotos.
Proof.
  pose proof (open_enter_enter_up_up Demo.platform (App.initial Demo.healthy)
                (App.OpenHistory Demo.photos) Demo.photos
                (Demo.folderOf Demo.trip) (Demo.folderOf Demo.raw)
                (files (App.hook Demo.atPhotos)) (files (App.hook Demo.atTrip))
                [mkFile "c.gif" Demo.cGif image]
                (folders (App.hook Demo.atPhotos)) (folders (App.hook Demo.atTrip)) []
                (or_introl eq_refl) eq_refl eq_refl eq_refl) as H.
  cbv zeta in H. split; apply H.
Defined.

(** C8.  A click on a breadcrumb segment other than the last one leaves the
    ancestor stack empty, whatever it held and whether or not the listing of
    the segment's directory goes through. *)
Theorem breadcrumb_jump_empties_stack (P : Platform) (h : FileSystemDirectoryHandle)
  (index : Z) (a : App.State) :
  index <> (Z.of_nat (List.length (path (App.hook a))) - 1)%Z ->
  directoryStack (App.hook (App.handleBreadcrumbNavigate P h index a)) = [].
Proof.
  intros Hindex. unfold App.handleBreadcrumbNavigate.
  destruct (Z.eqb_spec index (Z.of_nat (List.length (path (App.hook a))) - 1)) as [Heq|_];
    [contradiction|].
  rewrite hook_effects. cbn [App.hook App.setHook].
  unfold navigateToDirectory. now rewrite load_stack.
Qed.

Lemma breadcrumb_jump_empties_stack_witness :
  directoryStack (App.hook Demo.atTrip) = [Demo.photos] /\
  directoryStack (App.hook (App.handleBreadcrumbNavigate Demo.platform Demo.photos 0 Demo.atTrip)) = [].
Proof.
  split; [reflexivity|].
  apply (breadcrumb_jump_empties_stack Demo.platform Demo.photos 0 Demo.atTrip).
  vm_compute. discriminate.
Defined.

End NavigationClaims.

(** * [findIndex]: where it points *)
Section FindIndex.

Context {A : Type}.
Variable f : A -> bool.

(** Either nothing satisfies [f] and the result is -1, or the result is
    the offset of the first element that does. *)
Lemma findIndexFrom_spec (l : list A) (i : Z) :
  (findIndexFrom f l i = (-1)%Z /\ forall x, In x l -> f x = false) \/
  (exists k x, findIndexFrom f l i = (i + Z.of_nat k)%Z /\
               nth_error l k = Some x /\ f x = true /\
               forall j y, (j < k)%nat -> nth_error l j = Some y -> f y = false).
Proof.
  revert i. induction l as [|x l IH]; intros i.
  - left. split; [reflexivity|]. intros x [].
  - cbn [findIndexFrom]. destruct (f x) eqn:Hx.
    + right. exists 0%nat, x. repeat split.
      * lia.
      * exact Hx.
      * intros j y Hj. lia.
    + destruct (IH (i + 1)%Z) as [[Hnone Hall]|(k & y & Hk & Hnth & Hy & Hbefore)].
      * left. split; [exact Hnone|]. intros z [<-|Hz]; [exact Hx|now apply Hall].
      * right. exists (S k), y. repeat split.
        -- rewrite Hk. lia.
        -- exact Hnth.
        -- exact Hy.
        -- intros [|j] z Hj Hz; cbn in Hz.
           ++ now injection Hz as <-.
           ++ apply (Hbefore j); [lia|exact Hz].
Qed.

Lemma findIndex_absent (l : list A) :
  (forall x, In x l -> f x = false) -> findIndex f l = (-1)%Z.
Proof.
  intros Hall. unfold findIndex.
  destruct (findIndexFrom_spec l 0) as [[H _]|(k & x & _ & Hnth & Hx & _)]; [exact H|].
  apply nth_error_In in Hnth. rewrite (Hall x Hnth) in Hx. discriminate.
Qed.

Lemma findIndex_present (l : list A) (i : Z) :
  findIndex f l = i -> (0 <= i)%Z ->
  exists x, nth_error l (Z.to_nat i) = Some x /\ f x = true /\
            (i < Z.of_nat (List.length l))%Z.
Proof.
  unfold findIndex. intros Hi Hpos.
  destruct (findIndexFrom_spec l 0) as [[H _]|(k & x & Hk & Hnth & Hx & _)]; [lia|].
  exists x. rewrite Hk in Hi. subst i. cbn [Z.add]. rewrite Nat2Z.id.
  repeat split; [exact Hnth|exact Hx|].
  assert (k < List.length l)%nat by (apply nth_error_Some; congruence). lia.
Qed.

Lemma findIndex_first (l : list A) (k : nat) (x : A) :
  nth_error l k = Some x -> f x = true ->
  (forall j y, (j < k)%nat -> nth_error l j = Some y -> f y = false) ->
  findIndex f l = Z.of_nat k.
Proof.
  intros Hnth Hx Hbefore. unfold findIndex.
  destruct (findIndexFrom_spec l 0) as [[_ Hall]|(k' & x' & Hk' & Hnth' & Hx' & Hbefore')].
  - apply nth_error_In in Hnth. rewrite (Hall x Hnth) in Hx. discriminate.
  - rewrite Hk'. cbn [Z.add]. f_equal.
    destruct (Nat.lt_trichotomy k k') as [Hlt|[Heq|Hgt]]; [|now symmetry|].
    + rewrite (Hbefore' k x Hlt Hnth) in Hx. discriminate.
    + rewrite (Hbefore k' x' Hgt Hnth') in Hx'. discriminate.
Qed.

End FindIndex.

(** With distinct names, the file at position [k] is the one a lookup by
    its name finds. *)
Lemma findIndex_sameName (l : list FileSystem.FileSystemFile) (k : nat)
  (x : FileSystem.FileSystemFile) :
  NoDup (map FileSystem.fileName l) ->
  nth_error l k = Some x ->
  findIndex (App.sameName x) l = Z.of_nat k.
Proof.
  intros Hnodup Hnth.
  apply (findIndex_first _ l k x Hnth).
  - unfold App.sameName. apply String.eqb_refl.
  - intros j y Hj Hy. unfold App.sameName.
    destruct (String.eqb_spec (FileSystem.fileName y) (FileSystem.fileName x)) as [Heq|]; [|reflexivity].
    exfalso.
    assert (Hjk : j = k); [|lia].
    apply (proj1 (NoDup_nth_error (map FileSystem.fileName l)) Hnodup).
    + rewrite length_map. apply nth_error_Some. congruence.
    + rewrite !nth_error_map, Hy, Hnth. cbn. now f_equal.
Qed.

(** * Selection: next and previous *)
Section SelectionClaims.

Import FileSystem.

Lemma at_index_nth {A : Type} (l : list A) (i : Z) :
  (0 <= i)%Z -> at_index l i = nth_error l (Z.to_nat i).
Proof.
  intros Hi. unfold at_index.
  destruct (Z.ltb_spec i 0); [lia|reflexivity].
Qed.

Lemma nth_error_inside {A : Type} (l : list A) (i : Z) :
  (0 <= i < Z.of_nat (List.length l))%Z -> exists x, nth_error l (Z.to_nat i) = Some x.
Proof.
  intros Hi.
  destruct (nth_error l (Z.to_nat i)) as [x|] eqn:Hnth; [now exists x|].
  apply nth_error_None in Hnth. lia.
Qed.

(** C9.  The selected file's name is found at position [i] of the listing
    (the first file bearing it).  Then [handleNext] selects the file at
    [i + 1] when there is one and changes nothing at the last position;
    [handlePrev] selects the file at [i - 1] when [i > 0] and changes nothing
    at position 0.  Neither closes the preview or drops the selection, and
    the listing is not touched.  With distinct names the newly selected file
    is found at [i + 1], respectively [i - 1]. *)
Theorem next_prev_move_by_one (a : App.State) (sel : FileSystemFile) (i : Z) :
  App.selectedFile a = Some sel ->
  findIndex (App.sameName sel) (App.storeFiles a) = i ->
  (0 <= i)%Z ->
  let listing := App.storeFiles a in
  let final := (Z.of_nat (List.length listing) - 1)%Z in
  (i <= final)%Z /\
  ((i < final)%Z ->
     exists f, nth_error listing (Z.to_nat (i + 1)) = Some f /\
               App.handleNext a = App.setSelectedFile (Some f) a /\
               (NoDup (map fileName listing) ->
                findIndex (App.sameName f) listing = (i + 1)%Z)) /\
  (i = final -> App.handleNext a = a) /\
  ((0 < i)%Z ->
     exists f, nth_error listing (Z.to_nat (i - 1)) = Some f /\
               App.handlePrev a = App.setSelectedFile (Some f) a /\
               (NoDup (map fileName listing) ->
                findIndex (App.sameName f) listing = (i - 1)%Z)) /\
  (i = 0%Z -> App.handlePrev a = a) /\
  App.isPreviewOpen (App.handleNext a) = App.isPreviewOpen a /\
  App.isPreviewOpen (App.handlePrev a) = App.isPreviewOpen a /\
  App.selectedFile (App.handleNext a) <> None /\
  App.selectedFile (App.handlePrev a) <> None.
Proof.
  intros Hsel Hidx Hpos listing final.
  destruct (findIndex_present _ _ _ Hidx Hpos) as (x & Hx & _ & Hlt).
  fold listing in Hx, Hlt.
  assert (Hnext : (i < final)%Z ->
     exists f, nth_error listing (Z.to_nat (i + 1)) = Some f /\
               App.handleNext a = App.setSelectedFile (Some f) a).
  { intros Hi.
    destruct (nth_error_inside listing (i + 1)) as [f Hf]; [subst final; lia|].
    exists f. split; [exact Hf|].
    unfold App.handleNext. rewrite Hsel, Hidx. fold listing. fold final.
    destruct (Z.ltb_spec i final); [|lia].
    now rewrite at_index_nth, Hf by lia. }
  assert (Hprev : (0 < i)%Z ->
     exists f, nth_error listing (Z.to_nat (i - 1)) = Some f /\
               App.handlePrev a = App.setSelectedFile (Some f) a).
  { intros Hi.
    destruct (nth_error_inside listing (i - 1)) as [f Hf]; [subst final; lia|].
    exists f. split; [exact Hf|].
    unfold App.handlePrev. rewrite Hsel, Hidx. fold listing.
    destruct (Z.ltb_spec 0 i); [|lia].
    now rewrite at_index_nth, Hf by lia. }
  assert (Hlast : i = final -> App.handleNext a = a).
  { intros Hi. unfold App.handleNext. rewrite Hsel, Hidx. fold listing. fold final.
    destruct (Z.ltb_spec i final); [lia|reflexivity]. }
  assert (Hfirst : i = 0%Z -> App.handlePrev a = a).
  { intros Hi. unfold App.handlePrev. rewrite Hsel, Hidx.
    destruct (Z.ltb_spec 0 i); [lia|reflexivity]. }
  split; [subst final; lia|].
  split.
  { intros Hi. destruct (Hnext Hi) as (f & Hf & Hstep).
    exists f. repeat split; [exact Hf|exact Hstep|].
    intros Hnodup. rewrite (findIndex_sameName _ _ _ Hnodup Hf). lia. }
  split; [exact Hlast|].
  split.
  { intros Hi. destruct (Hprev Hi) as (f & Hf & Hstep).
    exists f. repeat split; [exact Hf|exact Hstep|].
    intros Hnodup. rewrite (findIndex_sameName _ _ _ Hnodup Hf). lia. }
  split; [exact Hfirst|].
  assert (Hcases : (i < final)%Z \/ i = final) by (subst final; lia).
  assert (Hcases' : (0 < i)%Z \/ i = 0%Z) by lia.
  repeat split.
  - destruct Hcases as [Hi|Hi]; [destruct (Hnext Hi) as (f & _ & ->)|rewrite (Hlast Hi)]; reflexivity.
  - destruct Hcases' as [Hi|Hi]; [destruct (Hprev Hi) as (f & _ & ->)|rewrite (Hfirst Hi)]; reflexivity.
  - destruct Hcases as [Hi|Hi]; [destruct (Hnext Hi) as (f & _ & ->)|rewrite (Hlast Hi), Hsel];
      discriminate.
  - destruct Hcases' as [Hi|Hi]; [destruct (Hprev Hi) as (f & _ & ->)|rewrite (Hfirst Hi), Hsel];
      discriminate.
Qed.

Lemma next_prev_move_by_one_witness :
  App.selectedFile Demo.previewing = Some (mkFile "a.png" Demo.aPng image) /\
  App.handleNext Demo.previewing =
    App.setSelectedFile (Some (mkFile "B.JPG" Demo.bJpg image)) Demo.previewing /\
  App.handlePrev Demo.previewing = Demo.previewing.
Proof.
  pose proof (next_prev_move_by_one Demo.previewing (mkFile "a.png" Demo.aPng image) 0
                eq_refl eq_refl (Z.le_refl 0)) as H.
  cbv zeta in H.
  destruct H as (_ & Hnext & _ & _ & Hfirst & _).
  split; [reflexivity|]. split.
  - destruct (Hnext eq_refl) as (f & Hf & Hstep & _).
    vm_compute in Hf. injection Hf as <-. exact Hstep.
  - apply Hfirst. reflexivity.
Defined.

(** C10.  The selected file's name is borne by no file of the listing.
    Then [handleNext] selects the first file of the listing when there is
    one (and changes nothing when the listing is empty), and [handlePrev]
    changes nothing. *)
Theorem stale_selection_next_prev (a : App.State) (sel : FileSystemFile) :
  App.selectedFile a = Some sel ->
  (forall f, In f (App.storeFiles a) -> fileName f <> fileName sel) ->
  (forall first rest, App.storeFiles a = first :: rest ->
     App.handleNext a = App.setSelectedFile (Some first) a) /\
  (App.storeFiles a = [] -> App.handleNext a = a) /\
  App.handlePrev a = a.
Proof.
  intros Hsel Hstale.
  assert (Hidx : findIndex (App.sameName sel) (App.storeFiles a) = (-1)%Z).
  { apply findIndex_absent. intros f Hf. unfold App.sameName.
    destruct (String.eqb_spec (fileName f) (fileName sel)) as [Heq|]; [|reflexivity].
    now destruct (Hstale f Hf). }
  repeat split.
  - intros first rest Hlist. unfold App.handleNext.
    rewrite Hsel, Hidx, Hlist. cbn [List.length].
    destruct (Z.ltb_spec (-1) (Z.of_nat (S (List.length rest)) - 1)); [reflexivity|lia].
  - intros Hlist. unfold App.handleNext. rewrite Hsel, Hidx, Hlist. reflexivity.
  - unfold App.handlePrev. rewrite Hsel, Hidx. reflexivity.
Qed.

Lemma stale_selection_next_prev_witness :
  App.selectedFile Demo.staleInRaw = Some (mkFile "a.png" Demo.aPng image) /\
  App.storeFiles Demo.staleInRaw = [mkFile "c.gif" Demo.cGif image] /\
  App.handleNext Demo.staleInRaw =
    App.setSelectedFile (Some (mkFile "c.gif" Demo.cGif image)) Demo.staleInRaw /\
  App.handlePrev Demo.staleInRaw = Demo.staleInRaw.
Proof.
  assert (Hstale : forall f, In f (App.storeFiles Demo.staleInRaw) ->
                             fileName f <> fileName (mkFile "a.png" Demo.aPng image)).
  { intros f [<-|[]]. discriminate. }
  destruct (stale_selection_next_prev Demo.staleInRaw (mkFile "a.png" Demo.aPng image)
              eq_refl Hstale) as (Hnext & _ & Hprev).
  split; [reflexivity|]. split; [reflexivity|]. split.
  - apply (Hnext _ []). reflexivity.
  - exact Hprev.
Defined.

End SelectionClaims.

(** * The favourites store: idempotence and write failures *)
Section FavoritesClaims.

Import FileSystem.

(** Sorting rearranges, it neither drops nor invents entries. *)
Lemma insert_permutation {A : Type} (cmp : A -> A -> Z) (x : A) (l : list A) :
  Permutation (insert cmp x l) (x :: l).
Proof.
  induction l as [|y l IH]; cbn [insert]; [reflexivity|].
  destruct (cmp x y <=? 0)%Z; [reflexivity|].
  rewrite IH. apply perm_swap.
Qed.

Lemma sort_permutation {A : Type} (cmp : A -> A -> Z) (l : list A) :
  Permutation (sort cmp l) l.
Proof.
  induction l as [|x l IH]; cbn [sort]; [reflexivity|].
  rewrite insert_permutation. now constructor.
Qed.

Lemma mapAt_names (now : Z) (l : list AppStore.FavoriteDirectory) (i : nat) :
  map AppStore.name
      (mapAt (fun d => AppStore.mkFavorite (AppStore.name d) (AppStore.handle d) now) l i) =
  map AppStore.name l.
Proof.
  revert i. induction l as [|d l IH]; intros [|i]; cbn; try reflexivity.
  now rewrite IH.
Qed.

Lemma findIndex_found {A : Type} (f : A -> bool) (l : list A) (x : A) :
  In x l -> f x = true -> (0 <= findIndex f l)%Z.
Proof.
  intros Hin Hx. unfold findIndex.
  destruct (findIndexFrom_spec f l 0) as [[_ Hall]|(k & y & -> & _)]; [|lia].
  rewrite (Hall x Hin) in Hx. discriminate.
Qed.

(** The names after an upsert: those before it, plus the handle's name if
    it was not among them. *)
Lemma upserted_names (now : Z) (h : FileSystemDirectoryHandle)
  (favs : list AppStore.FavoriteDirectory) :
  Permutation (map AppStore.name (AppStore.upserted now h favs))
              (if (0 <=? findIndex (AppStore.named (dirName h)) favs)%Z
               then map AppStore.name favs
               else map AppStore.name favs ++ [dirName h]).
Proof.
  unfold AppStore.upserted.
  rewrite (Permutation_map _ (sort_permutation _ _)).
  destruct (0 <=? findIndex (AppStore.named (dirName h)) favs)%Z.
  - now rewrite mapAt_names.
  - now rewrite map_app.
Qed.

Lemma upserted_has_name (now : Z) (h : FileSystemDirectoryHandle)
  (favs : list AppStore.FavoriteDirectory) :
  (0 <= findIndex (AppStore.named (dirName h)) (AppStore.upserted now h favs))%Z.
Proof.
  assert (Hin : In (dirName h) (map AppStore.name (AppStore.upserted now h favs))).
  { eapply Permutation_in; [symmetry; apply upserted_names|].
    destruct (Z.leb_spec 0 (findIndex (AppStore.named (dirName h)) favs)) as [Hpos|_].
    - destruct (findIndex_present _ _ _ eq_refl Hpos) as (d & Hd & Hname & _).
      apply String.eqb_eq in Hname. rewrite <- Hname.
      apply in_map. eapply nth_error_In, Hd.
    - apply in_or_app. right. now left. }
  apply in_map_iff in Hin. destruct Hin as (d & Hname & Hd).
  apply (findIndex_found _ _ d Hd). unfold AppStore.named. now apply String.eqb_eq.
Qed.

(** Upserting the same handle again, at whatever time, leaves the set of
    names as the first upsert made it. *)
Lemma upserted_twice_names (now later : Z) (h : FileSystemDirectoryHandle)
  (favs : list AppStore.FavoriteDirectory) :
  Permutation (map AppStore.name (AppStore.upserted later h (AppStore.upserted now h favs)))
              (map AppStore.name (AppStore.upserted now h favs)).
Proof.
  rewrite upserted_names.
  destruct (Z.leb_spec 0 (findIndex (AppStore.named (dirName h)) (AppStore.upserted now h favs)))
    as [_|Hneg]; [reflexivity|].
  pose proof (upserted_has_name now h favs). lia.
Qed.

(** Removing a name twice is removing it once. *)
Lemma removed_twice (n : string) (favs : list AppStore.FavoriteDirectory) :
  AppStore.removed n (AppStore.removed n favs) = AppStore.removed n favs.
Proof.
  unfold AppStore.removed.
  induction favs as [|d favs IH]; cbn [filter]; [reflexivity|].
  destruct (negb (AppStore.named n d)) eqn:Hd; cbn [filter]; rewrite ?Hd, IH; reflexivity.
Qed.

(** The in-memory favourites after either operation do not depend on the
    backend. *)
Lemma addFavoriteDirectory_favorites (now : Z) (h : FileSystemDirectoryHandle)
  (w : AppStore.World) :
  AppStore.favoriteDirectories (AppStore.state (fst (AppStore.addFavoriteDirectory now h w))) =
  AppStore.upserted now h (AppStore.favoriteDirectories (AppStore.state w)).
Proof.
  unfold AppStore.addFavoriteDirectory, AppStore.saveGuarded.
  match goal with |- context [AppStore.idbSet ?b ?v] => destruct (AppStore.idbSet b v) end;
    reflexivity.
Qed.

Lemma removeFavoriteDirectory_favorites (n : string) (w : AppStore.World) :
  AppStore.favoriteDirectories (AppStore.state (fst (AppStore.removeFavoriteDirectory n w))) =
  AppStore.removed n (AppStore.favoriteDirectories (AppStore.state w)).
Proof.
  unfold AppStore.removeFavoriteDirectory.
  match goal with |- context [AppStore.idbSet ?b ?v] => destruct (AppStore.idbSet b v) end;
    reflexivity.
Qed.

(** A failing write under an upsert is caught: one line is logged and the
    promise resolves. *)
Lemma addFavoriteDirectory_write_failure (now : Z) (h : FileSystemDirectoryHandle)
  (w : AppStore.World) (e : string) :
  AppStore.failure (AppStore.backend w) = Some e ->
  AppStore.addFavoriteDirectory now h w =
  (AppStore.consoleError "Failed to save favorite directories"
     (AppStore.setFavorites (AppStore.upserted now h (AppStore.favoriteDirectories (AppStore.state w))) w),
   Resolved tt).
Proof.
  intros He. unfold AppStore.addFavoriteDirectory, AppStore.saveGuarded, AppStore.idbSet.
  cbn [AppStore.backend AppStore.setFavorites]. now rewrite He.
Qed.

(** A failing write under a removal is not: nothing is logged and the
    promise rejects with the backend's error. *)
Lemma removeFavoriteDirectory_write_failure (n : string) (w : AppStore.World) (e : string) :
  AppStore.failure (AppStore.backend w) = Some e ->
  AppStore.removeFavoriteDirectory n w =
  (AppStore.setFavorites (AppStore.removed n (AppStore.favoriteDirectories (AppStore.state w))) w,
   Rejected e).
Proof.
  intros He. unfold AppStore.removeFavoriteDirectory, AppStore.idbSet.
  cbn [AppStore.backend AppStore.setFavorites]. now rewrite He.
Qed.

(** C3, at a failing write.  With "trip" and "photos" in the favourites and
    a backend that throws QuotaExceededError, removing "photos" updates the
    in-memory favourites but logs nothing and rejects; upserting photos/ on
    the same store logs the failure and resolves. *)
Theorem removeFavoriteDirectory_rejects_on_write_failure :
  let w := Demo.twoFavorites Demo.quotaExceeded in
  AppStore.removeFavoriteDirectory "photos" w =
    (AppStore.setFavorites [AppStore.mkFavorite "trip" Demo.trip 200] w,
     Rejected "QuotaExceededError") /\
  AppStore.console (fst (AppStore.removeFavoriteDirectory "photos" w)) = [] /\
  AppStore.addFavoriteDirectory 300 Demo.photos w =
    (AppStore.consoleError "Failed to save favorite directories"
       (AppStore.setFavorites
          [AppStore.mkFavorite "photos" Demo.photos 300; AppStore.mkFavorite "trip" Demo.trip 200] w),
     Resolved tt).
Proof.
  cbv zeta. repeat split; vm_compute; reflexivity.
Qed.

End FavoritesClaims.

(** * The listing: what it holds and in which order *)
Section ListingFacts.

Import FileSystem.
Local Open Scope string_scope.

(** [sort] orders by [cmp] when [cmp] is a total preorder. *)
Section SortOrder.
Context {A : Type}.
Variable cmp : A -> A -> Z.
Hypothesis cmp_total : forall x y, (cmp x y <= 0)%Z \/ (cmp y x <= 0)%Z.
Hypothesis cmp_trans : forall x y z, (cmp x y <= 0)%Z -> (cmp y z <= 0)%Z -> (cmp x z <= 0)%Z.

Let before (x y : A) : Prop := (cmp x y <= 0)%Z.

Lemma insert_sorted (x : A) (l : list A) :
  Sorted.StronglySorted before l -> Sorted.StronglySorted before (insert cmp x l).
Proof.
  induction 1 as [|y l Hl IH Hy]; cbn [insert].
  - constructor; constructor.
  - destruct (Z.leb_spec (cmp x y) 0) as [Hxy|Hyx].
    + constructor; [now constructor|].
      constructor; [exact Hxy|].
      eapply Forall_impl; [|exact Hy]. intros z Hz. now apply (cmp_trans x y z).
    + constructor; [exact IH|].
      eapply Permutation_Forall; [symmetry; apply insert_permutation|].
      constructor; [|exact Hy].
      destruct (cmp_total y x) as [H|H]; [exact H|]. unfold before. lia.
Qed.

Lemma sort_sorted (l : list A) : Sorted.StronglySorted before (sort cmp l).
Proof.
  induction l as [|x l IH]; cbn [sort]; [constructor|]. now apply insert_sorted.
Qed.

(** A list already in order is left as it is. *)
Lemma sort_of_sorted (l : list A) :
  Sorted.StronglySorted before l -> sort cmp l = l.
Proof.
  induction 1 as [|x l Hl IH Hx]; cbn [sort]; [reflexivity|].
  rewrite IH. destruct l as [|y l]; [reflexivity|]. cbn [insert].
  apply Forall_inv in Hx. unfold before in Hx.
  destruct (Z.leb_spec (cmp x y) 0); [reflexivity|lia].
Qed.

End SortOrder.

(** What one pass over the entries collects. *)
Lemma collect_files (es : list Entry) (f : FileSystemFile) :
  In f (fst (collect es)) <->
  exists fh, In (FileEntry fh) es /\ isImageName (fileHandleName fh) = true /\
             f = mkFile (fileHandleName fh) fh image.
Proof.
  induction es as [|[fh|dh] es IH]; cbn [collect].
  - cbn. split; [intros []|intros (fh & [] & _)].
  - destruct (collect es) as [fs ds] eqn:Hc. cbn [fst] in IH.
    destruct (isImageName (fileHandleName fh)) eqn:Himg; cbn [fst].
    + split.
      * intros [<-|Hin].
        -- exists fh. repeat split; [now left|exact Himg].
        -- apply IH in Hin. destruct Hin as (fh' & Hin & Hi & ->).
           exists fh'. repeat split; [now right|exact Hi].
      * intros (fh' & [Heq|Hin] & Hi & ->).
        -- injection Heq as <-. now left.
        -- right. apply IH. now exists fh'.
    + rewrite IH. split.
      * intros (fh' & Hin & Hi & ->). exists fh'. repeat split; [now right|exact Hi].
      * intros (fh' & [Heq|Hin] & Hi & ->).
        -- injection Heq as <-. congruence.
        -- now exists fh'.
  - destruct (collect es) as [fs ds] eqn:Hc. cbn [fst] in *.
    rewrite IH. split.
    + intros (fh' & Hin & Hi & ->). exists fh'. repeat split; [now right|exact Hi].
    + intros (fh' & [Heq|Hin] & Hi & ->); [discriminate|now exists fh'].
Qed.

Lemma collect_folders (es : list Entry) (d : FileSystemFolder) :
  In d (snd (collect es)) <->
  exists dh, In (DirectoryEntry dh) es /\ d = mkFolder (dirName dh) dh.
Proof.
  induction es as [|[fh|dh] es IH]; cbn [collect].
  - cbn. split; [intros []|intros (dh & [] & _)].
  - destruct (collect es) as [fs ds] eqn:Hc. cbn [snd] in IH.
    assert (Hsnd : snd (if isImageName (fileHandleName fh)
                        then (mkFile (fileHandleName fh) fh image :: fs, ds) else (fs, ds)) = ds)
      by now destruct (isImageName (fileHandleName fh)).
    rewrite Hsnd, IH. split.
    + intros (dh & Hin & ->). exists dh. split; [now right|reflexivity].
    + intros (dh & [Heq|Hin] & ->); [discriminate|now exists dh].
  - destruct (collect es) as [fs ds] eqn:Hc. cbn [snd] in *. split.
    + intros [<-|Hin].
      * exists dh. split; [now left|reflexivity].
      * apply IH in Hin. destruct Hin as (dh' & Hin & ->). exists dh'. split; [now right|reflexivity].
    + intros (dh' & [Heq|Hin] & ->).
      * injection Heq as <-. now left.
      * right. apply IH. now exists dh'.
Qed.

Lemma collect_length (es : list Entry) :
  (List.length (fst (collect es)) + List.length (snd (collect es)) <= List.length es)%nat.
Proof.
  induction es as [|[fh|dh] es IH]; cbn [collect List.length]; [cbn; lia| |].
  - destruct (collect es) as [fs ds]. cbn [fst snd] in IH.
    destruct (isImageName (fileHandleName fh)); cbn [fst snd List.length]; lia.
  - destruct (collect es) as [fs ds]. cbn [fst snd List.length] in *. lia.
Qed.

(** A listing that came back went through every step of the [try] block. *)
Lemma readDirectory_returned (P : Platform) (h : FileSystemDirectoryHandle)
  (fs : list FileSystemFile) (ds : list FileSystemFolder) :
  readDirectory P h = Returned (fs, ds) ->
  verifyPermission P h = Returned tt /\
  exists es, values P h = Returned es /\
    fs = sort (fun a b => localeCompare P (fileName a) (fileName b)) (fst (collect es)) /\
    ds = sort (fun a b => localeCompare P (folderName a) (folderName b)) (snd (collect es)).
Proof.
  unfold readDirectory, bind.
  destruct (verifyPermission P h) as [[]|e]; [|discriminate].
  destruct (values P h) as [es|e]; [|discriminate].
  destruct (collect es) as [newFiles newFolders] eqn:Hc. intros [= <- <-].
  split; [reflexivity|]. exists es. rewrite Hc. split; [reflexivity|]. split; reflexivity.
Qed.

(** X1.  A listing that comes back holds exactly the file entries whose
    name has an image extension, each typed [image], and exactly the
    directory entries; nothing is listed twice over what the directory
    yielded. *)
Theorem listing_content (P : Platform) (h : FileSystemDirectoryHandle)
  (fs : list FileSystemFile) (ds : list FileSystemFolder) :
  readDirectory P h = Returned (fs, ds) ->
  exists es, values P h = Returned es /\
    (forall f, In f fs <->
       exists fh, In (FileEntry fh) es /\ isImageName (fileHandleName fh) = true /\
                  f = mkFile (fileHandleName fh) fh image) /\
    (forall d, In d ds <->
       exists dh, In (DirectoryEntry dh) es /\ d = mkFolder (dirName dh) dh) /\
    (List.length fs + List.length ds <= List.length es)%nat.
Proof.
  intros Hread.
  destruct (readDirectory_returned _ _ _ _ Hread) as (_ & es & Hes & -> & ->).
  exists es. split; [exact Hes|]. repeat split.
  - intros Hin. apply collect_files.
    eapply Permutation_in; [apply sort_permutation|exact Hin].
  - intros Hex. eapply Permutation_in; [symmetry; apply sort_permutation|].
    now apply collect_files.
  - intros Hin. apply collect_folders.
    eapply Permutation_in; [apply sort_permutation|exact Hin].
  - intros Hex. eapply Permutation_in; [symmetry; apply sort_permutation|].
    now apply collect_folders.
  - rewrite !(Permutation_length (sort_permutation _ _)). apply collect_length.
Qed.

Lemma listing_content_witness :
  exists es, values Demo.platform Demo.photos = Returned es /\
    (In (mkFile "B.JPG" Demo.bJpg image) (files (App.hook Demo.atPhotos)) <->
       exists fh, In (FileEntry fh) es /\ isImageName (fileHandleName fh) = true /\
                  mkFile "B.JPG" Demo.bJpg image = mkFile (fileHandleName fh) fh image).
Proof.
  destruct (listing_content Demo.platform Demo.photos
              (files (App.hook Demo.atPhotos)) (folders (App.hook Demo.atPhotos)) eq_refl)
    as (es & Hes & Hfiles & _).
  exists es. split; [exact Hes|apply Hfiles].
Defined.

(** X2.  When [localeCompare] is a total preorder on names, the files and
    the folders of a listing are each in non-decreasing order of name. *)
Theorem listing_sorted (P : Platform) (h : FileSystemDirectoryHandle)
  (fs : list FileSystemFile) (ds : list FileSystemFolder) :
  (forall x y, (localeCompare P x y <= 0)%Z \/ (localeCompare P y x <= 0)%Z) ->
  (forall x y z, (localeCompare P x y <= 0)%Z -> (localeCompare P y z <= 0)%Z ->
                 (localeCompare P x z <= 0)%Z) ->
  readDirectory P h = Returned (fs, ds) ->
  Sorted.StronglySorted (fun a b => (localeCompare P (fileName a) (fileName b) <= 0)%Z) fs /\
  Sorted.StronglySorted (fun a b => (localeCompare P (folderName a) (folderName b) <= 0)%Z) ds.
Proof.
  intros Htotal Htrans Hread.
  destruct (readDirectory_returned _ _ _ _ Hread) as (_ & es & _ & -> & ->).
  split; apply sort_sorted; intros; eauto.
Qed.

Lemma byLength_total (x y : string) :
  (Samples.byLength x y <= 0)%Z \/ (Samples.byLength y x <= 0)%Z.
Proof. unfold Samples.byLength. lia. Qed.

Lemma byLength_trans (x y z : string) :
  (Samples.byLength x y <= 0)%Z -> (Samples.byLength y z <= 0)%Z ->
  (Samples.byLength x z <= 0)%Z.
Proof. unfold Samples.byLength. lia. Qed.

Lemma listing_sorted_witness :
  readDirectory Samples.platform Demo.photos =
    Returned ([mkFile "B.JPG" Demo.bJpg image; mkFile "a.png" Demo.aPng image],
              [mkFolder "trip" Demo.trip; mkFolder "gone" Demo.gone;
               mkFolder "locked" Demo.locked]) /\
  Sorted.StronglySorted
    (fun a b => (Samples.byLength (folderName a) (folderName b) <= 0)%Z)
    [mkFolder "trip" Demo.trip; mkFolder "gone" Demo.gone; mkFolder "locked" Demo.locked].
Proof.
  split; [reflexivity|].
  apply (listing_sorted Samples.platform Demo.photos
           [mkFile "B.JPG" Demo.bJpg image; mkFile "a.png" Demo.aPng image]
           [mkFolder "trip" Demo.trip; mkFolder "gone" Demo.gone; mkFolder "locked" Demo.locked]
           byLength_total byLength_trans eq_refl).
Defined.

(** X3.  A listing comes back only when read permission was granted, by
    the query or else by the request that follows it. *)
Theorem listing_requires_permission (P : Platform) (h : FileSystemDirectoryHandle)
  (fs : list FileSystemFile) (ds : list FileSystemFolder) :
  readDirectory P h = Returned (fs, ds) ->
  queryPermission P h = Returned granted \/
  (exists q, queryPermission P h = Returned q /\ q <> granted /\
             requestPermission P h = Returned granted).
Proof.
  intros Hread.
  destruct (readDirectory_returned _ _ _ _ Hread) as (Hperm & _).
  unfold verifyPermission, bind in Hperm.
  destruct (queryPermission P h) as [q|e]; [|discriminate].
  destruct q; [now left| |];
    (destruct (requestPermission P h) as [r|e]; [|discriminate]);
    (destruct r; try discriminate);
    right; eexists; repeat split; discriminate.
Qed.

Lemma listing_requires_permission_witness :
  queryPermission Demo.platform Demo.trip = Returned granted \/
  (exists q, queryPermission Demo.platform Demo.trip = Returned q /\ q <> granted /\
             requestPermission Demo.platform Demo.trip = Returned granted).
Proof.
  apply (listing_requires_permission Demo.platform Demo.trip
           [mkFile "a.png" Demo.tripAPng image] [mkFolder "raw" Demo.raw] eq_refl).
Defined.

End ListingFacts.

(** * File names: which ones count as images *)
Section NameFacts.

Import FileSystem.
Local Open Scope string_scope.

Lemma append_assoc (a b c : string) : (a ++ b) ++ c = a ++ (b ++ c).
Proof. induction a as [|x a IH]; cbn; [reflexivity|now rewrite IH]. Qed.

Lemma append_empty (a : string) : a ++ "" = a.
Proof. induction a as [|x a IH]; cbn; [reflexivity|now rewrite IH]. Qed.

Lemma lastSegment_dotless (acc e : string) :
  Names.hasDot e = false -> lastSegment acc e = acc ++ e.
Proof.
  revert acc. induction e as [|c e IH]; intros acc Hdot; cbn [lastSegment].
  - now rewrite append_empty.
  - cbn [Names.hasDot] in Hdot. apply orb_false_elim in Hdot. destruct Hdot as [Hc He].
    rewrite Hc, (IH _ He), append_assoc. reflexivity.
Qed.

Lemma lastSegment_after_dot (acc p e : string) :
  lastSegment acc (p ++ String "." e) = lastSegment "" e.
Proof.
  revert acc. induction p as [|c p IH]; intros acc; cbn [append lastSegment].
  - reflexivity.
  - destruct (Ascii.eqb c "."); apply IH.
Qed.

(** X4.  Only what follows the last dot decides: with [e] free of dots, a
    name [p.e] is an image name exactly when [e] is one, for every [p]; and
    [e] itself, a name without any dot, is an image name exactly when it is
    non-empty and, lower-cased, one of the eight extensions. *)
Theorem isImageName_extension (p e : string) :
  Names.hasDot e = false ->
  isImageName (p ++ String "." e) = isImageName e /\
  isImageName e = negb (String.eqb (toLowerCase e) "") &&
                  includes IMAGE_EXTENSIONS (toLowerCase e).
Proof.
  intros Hdot. unfold isImageName.
  rewrite lastSegment_after_dot, (lastSegment_dotless "" e Hdot). cbn [append].
  split; reflexivity.
Qed.

Lemma isImageName_extension_witness :
  isImageName ("holiday.2024" ++ String "." "PNG") = isImageName "PNG" /\
  isImageName "PNG" = true.
Proof.
  destruct (isImageName_extension "holiday.2024" "PNG" eq_refl) as [Hprefix Hbare].
  split; [exact Hprefix|]. rewrite Hbare. reflexivity.
Defined.

Lemma lowerChar_dot (c : ascii) :
  Ascii.eqb (lowerChar c) "."%char = Ascii.eqb c "."%char.
Proof.
  destruct c as [[] [] [] [] [] [] [] []]; reflexivity.
Qed.

Lemma toLowerCase_append (a b : string) :
  toLowerCase (a ++ b) = toLowerCase a ++ toLowerCase b.
Proof. induction a as [|x a IH]; cbn; [reflexivity|now rewrite IH]. Qed.

Lemma toLowerCase_lastSegment (acc s : string) :
  toLowerCase (lastSegment acc s) = lastSegment (toLowerCase acc) (toLowerCase s).
Proof.
  revert acc. induction s as [|c s IH]; intros acc; cbn [lastSegment toLowerCase].
  - reflexivity.
  - rewrite lowerChar_dot. destruct (Ascii.eqb c "."); rewrite IH; [reflexivity|].
    now rewrite toLowerCase_append.
Qed.

(** X5.  Letter case plays no part: two names that are equal once
    lower-cased are both image names or both not. *)
Theorem isImageName_ignores_case (n m : string) :
  toLowerCase n = toLowerCase m -> isImageName n = isImageName m.
Proof.
  intros Hcase. unfold isImageName.
  now rewrite !toLowerCase_lastSegment, Hcase.
Qed.

Lemma isImageName_ignores_case_witness :
  isImageName "Cover.JpEg" = isImageName "cover.jpeg".
Proof.
  apply (isImageName_ignores_case "Cover.JpEg" "cover.jpeg"). reflexivity.
Defined.

End NameFacts.

(** * Navigation: errors, breadcrumb path, enter and up *)
Section NavigationMore.

Import FileSystem.

(** X6.  Whatever the state before, a load leaves the busy flag off and the
    stack alone; the error is null afterwards exactly when the listing came
    back, in which case the handle is the one loaded, and otherwise handle,
    files and folders are those of before. *)
Theorem load_outcome (P : Platform) (h : FileSystemDirectoryHandle) (s : State) :
  let s' := loadFilesFromDirectory P h s in
  isLoading s' = false /\
  directoryStack s' = directoryStack s /\
  (error s' = None <-> exists r, readDirectory P h = Returned r) /\
  (error s' = None -> currentDirectoryHandle s' = Some h) /\
  (error s' <> None ->
     currentDirectoryHandle s' = currentDirectoryHandle s /\
     files s' = files s /\ folders s' = folders s).
Proof.
  cbv zeta.
  destruct (readDirectory P h) as [[newFiles newFolders]|message] eqn:Hread.
  - rewrite (load_success _ _ _ _ _ Hread). cbn.
    split; [reflexivity|]. split; [reflexivity|]. split; [|split].
    + split; [intros _; now eexists|reflexivity].
    + reflexivity.
    + intros Hne. now destruct Hne.
  - rewrite (load_failure _ _ _ _ Hread). cbn.
    split; [reflexivity|]. split; [reflexivity|]. split; [|split].
    + split; [discriminate|intros (r & Hr); discriminate].
    + discriminate.
    + intros _. repeat split.
Qed.

(** X7.  In a settled state (the listing shown is the current directory's,
    nothing loading, no error), entering a folder and going up again, both
    listings coming back, gives the very state one started from, whatever
    the depth of the stack. *)
Theorem enter_then_up (P : Platform) (s : State) (A : FileSystemDirectoryHandle)
  (B : FileSystemFolder) (filesB : list FileSystemFile) (foldersB : list FileSystemFolder) :
  currentDirectoryHandle s = Some A ->
  readDirectory P A = Returned (files s, folders s) ->
  isLoading s = false ->
  error s = None ->
  readDirectory P (folderHandle B) = Returned (filesB, foldersB) ->
  navigateUp P (navigateToDirectory P B false s) = s.
Proof.
  intros Hcur HA Hidle Herr HB.
  unfold navigateToDirectory. rewrite Hcur, (load_success _ _ _ _ _ HB).
  cbn [setDirectoryStack directoryStack console].
  unfold navigateUp. cbn [directoryStack].
  destruct (directoryStack s ++ [A]) as [|top rest] eqn:Hstack.
  - now destruct (directoryStack s).
  - rewrite <- Hstack, last_last, removelast_last, (load_success _ _ _ _ _ HA).
    cbn [setDirectoryStack directoryStack console].
    destruct s; cbn in *. now subst.
Qed.

Lemma enter_then_up_witness :
  navigateUp Demo.platform
    (navigateToDirectory Demo.platform (Demo.folderOf Demo.raw) false (App.hook Demo.atTrip)) =
  App.hook Demo.atTrip.
Proof.
  apply (enter_then_up Demo.platform (App.hook Demo.atTrip) Demo.trip (Demo.folderOf Demo.raw)
           [mkFile "c.gif" Demo.cGif image] []);
    reflexivity.
Defined.

(** X8.  After entering a folder whose listing comes back, the breadcrumb
    path is the path of before with the folder's handle appended. *)
Theorem path_after_enter (P : Platform) (s : State) (B : FileSystemFolder)
  (filesB : list FileSystemFile) (foldersB : list FileSystemFolder) :
  readDirectory P (folderHandle B) = Returned (filesB, foldersB) ->
  path (navigateToDirectory P B false s) = path s ++ [folderHandle B].
Proof.
  intros HB. unfold navigateToDirectory.
  rewrite (load_success _ _ _ _ _ HB). unfold path.
  destruct (currentDirectoryHandle s); cbn; [now rewrite <- app_assoc|now rewrite app_nil_r].
Qed.

Lemma path_after_enter_witness :
  path (navigateToDirectory Demo.platform (Demo.folderOf Demo.raw) false (App.hook Demo.atTrip)) =
  [Demo.photos; Demo.trip; Demo.raw].
Proof.
  apply (path_after_enter Demo.platform (App.hook Demo.atTrip) (Demo.folderOf Demo.raw)
           [mkFile "c.gif" Demo.cGif image] []).
  reflexivity.
Defined.

(** X9.  Going up from a directory that has ancestors, the parent's listing
    coming back, drops the last segment of the breadcrumb path and nothing
    else. *)
Theorem path_after_up (P : Platform) (s : State) (current top : FileSystemDirectoryHandle)
  (filesP : list FileSystemFile) (foldersP : list FileSystemFolder) :
  currentDirectoryHandle s = Some current ->
  directoryStack s <> [] ->
  readDirectory P (last (directoryStack s) top) = Returned (filesP, foldersP) ->
  path (navigateUp P s) = removelast (path s) /\
  currentDirectoryHandle (navigateUp P s) = Some (last (directoryStack s) top).
Proof.
  intros Hcur Hstack Hread. unfold navigateUp, path. rewrite Hcur.
  destruct (directoryStack s) as [|first rest] eqn:Hs; [contradiction|].
  assert (Hlast : forall d, last (first :: rest) d = last (first :: rest) top).
  { intros d. clear. revert first. induction rest as [|x rest IH]; intros first.
    - reflexivity.
    - change (last (x :: rest) d = last (x :: rest) top). apply IH. }
  rewrite (Hlast first), (load_success _ _ _ _ _ Hread).
  cbn [setDirectoryStack directoryStack currentDirectoryHandle].
  split; [|reflexivity].
  rewrite removelast_last. symmetry. apply app_removelast_last. discriminate.
Qed.

Lemma path_after_up_witness :
  path (navigateUp Demo.platform (App.hook Demo.atTrip)) = [Demo.photos] /\
  currentDirectoryHandle (navigateUp Demo.platform (App.hook Demo.atTrip)) = Some Demo.photos.
Proof.
  apply (path_after_up Demo.platform (App.hook Demo.atTrip) Demo.trip Demo.photos
           (files (App.hook Demo.atPhotos)) (folders (App.hook Demo.atPhotos))).
  - reflexivity.
  - discriminate.
  - reflexivity.
Defined.

(** X10.  A click on a breadcrumb segment other than the last, its
    directory's listing coming back, makes that directory the current one
    with its listing, and the path shrinks to that single segment: the
    ancestors that were displayed before it are gone and Back is not
    offered. *)
Theorem clickSegment_success (P : Platform) (a : App.State) (index : nat)
  (item : FileSystemDirectoryHandle)
  (newFiles : list FileSystemFile) (newFolders : list FileSystemFolder) :
  nth_error (path (App.hook a)) index = Some item ->
  index <> (List.length (path (App.hook a)) - 1)%nat ->
  readDirectory P item = Returned (newFiles, newFolders) ->
  let a' := Breadcrumbs.clickSegment P index a in
  currentDirectoryHandle (App.hook a') = Some item /\
  files (App.hook a') = newFiles /\
  folders (App.hook a') = newFolders /\
  path (App.hook a') = [item] /\
  canNavigateUp (App.hook a') = false.
Proof.
  intros Hitem Hindex Hread. cbv zeta.
  unfold Breadcrumbs.clickSegment. rewrite Hitem.
  destruct (Nat.eqb_spec index (List.length (path (App.hook a)) - 1)) as [|_]; [contradiction|].
  unfold App.handleBreadcrumbNavigate.
  assert (Hlen : (index < List.length (path (App.hook a)))%nat)
    by (apply nth_error_Some; congruence).
  destruct (Z.eqb_spec (Z.of_nat index) (Z.of_nat (List.length (path (App.hook a))) - 1)) as [Heq|_];
    [lia|].
  rewrite hook_effects. cbn [App.hook App.setHook].
  unfold navigateToDirectory. cbn [folderHandle].
  rewrite (load_success _ _ _ _ _ Hread). cbn. repeat split.
Qed.

Lemma clickSegment_success_witness :
  path (App.hook Demo.staleInRaw) = [Demo.photos; Demo.trip; Demo.raw] /\
  path (App.hook (Breadcrumbs.clickSegment Demo.platform 1 Demo.staleInRaw)) = [Demo.trip].
Proof.
  split; [reflexivity|].
  apply (clickSegment_success Demo.platform Demo.staleInRaw 1 Demo.trip
           [mkFile "a.png" Demo.tripAPng image] [mkFolder "raw" Demo.raw]).
  - reflexivity.
  - discriminate.
  - reflexivity.
Defined.

(** X11.  The Home button is the button of the first segment: it does what
    a click on segment 0 does, and in particular nothing when the root is
    the current directory or no directory is open. *)
Theorem clickHome_is_first_segment (P : Platform) (a : App.State) :
  Breadcrumbs.clickHome P a = Breadcrumbs.clickSegment P 0 a /\
  ((List.length (path (App.hook a)) <= 1)%nat -> Breadcrumbs.clickHome P a = a).
Proof.
  unfold Breadcrumbs.clickHome, Breadcrumbs.clickSegment, App.handleBreadcrumbNavigate.
  destruct (path (App.hook a)) as [|root [|next rest]]; cbn [nth_error List.length].
  - split; reflexivity.
  - split; reflexivity.
  - split; [reflexivity|]. cbn. lia.
Qed.

End NavigationMore.

(** * Sessions: what holds in every state *)
Section SessionFacts.

Import FileSystem.

Lemma findIndex_range {A : Type} (f : A -> bool) (l : list A) :
  (-1 <= findIndex f l < Z.of_nat (List.length l))%Z.
Proof.
  unfold findIndex.
  destruct (findIndexFrom_spec f l 0) as [[-> _]|(k & x & -> & Hnth & _)]; [lia|].
  assert (k < List.length l)%nat by (apply nth_error_Some; congruence). lia.
Qed.

(** [handleNext] and [handlePrev] change the selection at most, and never
    to null. *)
Lemma handleNext_shape (a : App.State) :
  exists sel, App.handleNext a = App.setSelectedFile sel a /\
              (App.selectedFile a <> None -> sel <> None) /\
              (App.selectedFile a = None -> sel = None).
Proof.
  unfold App.handleNext. destruct (App.selectedFile a) as [cur|] eqn:Hsel.
  - pose proof (findIndex_range (App.sameName cur) (App.storeFiles a)) as Hrange.
    destruct (Z.ltb_spec (findIndex (App.sameName cur) (App.storeFiles a))
                         (Z.of_nat (List.length (App.storeFiles a)) - 1)) as [Hlt|Hge].
    + eexists. split; [reflexivity|]. split; [|discriminate]. intros _.
      unfold at_index. destruct (Z.ltb_spec (findIndex (App.sameName cur) (App.storeFiles a) + 1) 0);
        [lia|].
      apply nth_error_Some. lia.
    + exists (Some cur). split; [|split; [discriminate|discriminate]].
      destruct a; cbn in *. now subst.
  - exists None. split; [|split; [congruence|reflexivity]].
    destruct a; cbn in *. now subst.
Qed.

Lemma handlePrev_shape (a : App.State) :
  exists sel, App.handlePrev a = App.setSelectedFile sel a /\
              (App.selectedFile a <> None -> sel <> None) /\
              (App.selectedFile a = None -> sel = None).
Proof.
  unfold App.handlePrev. destruct (App.selectedFile a) as [cur|] eqn:Hsel.
  - pose proof (findIndex_range (App.sameName cur) (App.storeFiles a)) as Hrange.
    destruct (Z.ltb_spec 0 (findIndex (App.sameName cur) (App.storeFiles a))) as [Hlt|Hge].
    + eexists. split; [reflexivity|]. split; [|discriminate]. intros _.
      unfold at_index. destruct (Z.ltb_spec (findIndex (App.sameName cur) (App.storeFiles a) - 1) 0);
        [lia|].
      apply nth_error_Some. lia.
    + exists (Some cur). split; [|split; [discriminate|discriminate]].
      destruct a; cbn in *. now subst.
  - exists None. split; [|split; [congruence|reflexivity]].
    destruct a; cbn in *. now subst.
Qed.

(** Changing the selection alone keeps everything about hook and store. *)
Lemma setSelectedFile_invariant (sel : option FileSystemFile) (a : App.State) :
  Session.Invariant a ->
  (App.selectedFile a <> None -> sel <> None) ->
  (App.selectedFile a = None -> sel = None) ->
  Session.Invariant (App.setSelectedFile sel a).
Proof.
  intros [Hm Hd Hi Hr Himg Hp] Hsome Hnone.
  constructor; try assumption. cbn. rewrite Hp.
  destruct (App.selectedFile a); split; intros H.
  - apply Hsome. discriminate.
  - discriminate.
  - now destruct H.
  - rewrite Hnone in H by reflexivity. now destruct H.
Qed.

Lemma handleClose_invariant (a : App.State) :
  Session.Invariant a -> Session.Invariant (App.handleClose a).
Proof.
  intros [Hm Hd Hi Hr Himg Hp]. constructor; try assumption. cbn.
  split; [discriminate|intros H; now destruct H].
Qed.

(** Changing favourites, backend or console of the store alone keeps the
    invariant. *)
Lemma setStore_invariant (w : AppStore.World) (a : App.State) :
  Session.Invariant a ->
  AppStore.files (AppStore.state w) = AppStore.files (AppStore.state (App.store a)) ->
  AppStore.currentDirectoryHandle (AppStore.state w) =
    AppStore.currentDirectoryHandle (AppStore.state (App.store a)) ->
  Session.Invariant (App.setStore w a).
Proof.
  intros [Hm Hd Hi Hr Himg Hp] Hfiles Hcur.
  constructor; try assumption.
  - unfold App.mirrored, App.storeFiles in *. cbn. now rewrite Hfiles.
  - cbn. now rewrite Hcur.
Qed.

Lemma saveGuarded_view (v : list AppStore.FavoriteDirectory) (w : AppStore.World) :
  AppStore.files (AppStore.state (fst (AppStore.saveGuarded v (AppStore.setFavorites v w)))) =
    AppStore.files (AppStore.state w) /\
  AppStore.currentDirectoryHandle
    (AppStore.state (fst (AppStore.saveGuarded v (AppStore.setFavorites v w)))) =
    AppStore.currentDirectoryHandle (AppStore.state w).
Proof.
  unfold AppStore.saveGuarded.
  destruct (AppStore.idbSet (AppStore.backend (AppStore.setFavorites v w)) v); split; reflexivity.
Qed.

Lemma removeFavoriteDirectory_view (n : string) (w : AppStore.World) :
  AppStore.files (AppStore.state (fst (AppStore.removeFavoriteDirectory n w))) =
    AppStore.files (AppStore.state w) /\
  AppStore.currentDirectoryHandle (AppStore.state (fst (AppStore.removeFavoriteDirectory n w))) =
    AppStore.currentDirectoryHandle (AppStore.state w).
Proof.
  unfold AppStore.removeFavoriteDirectory.
  match goal with |- context [AppStore.idbSet ?b ?v] => destruct (AppStore.idbSet b v) end;
    split; reflexivity.
Qed.

(** The files a listing yields are images. *)
Lemma readDirectory_images (P : Platform) (h : FileSystemDirectoryHandle)
  (fs : list FileSystemFile) (ds : list FileSystemFolder) :
  readDirectory P h = Returned (fs, ds) ->
  Forall (fun f => fileType f = image /\ isImageName (fileName f) = true) fs.
Proof.
  intros Hread.
  destruct (readDirectory_returned _ _ _ _ Hread) as (_ & es & _ & -> & _).
  apply Forall_forall. intros f Hin.
  apply (Permutation_in _ (sort_permutation _ _)) in Hin.
  apply collect_files in Hin. destruct Hin as (fh & _ & Himg & ->). now split.
Qed.

Lemma load_settled (P : Platform) (h : FileSystemDirectoryHandle)
  (k : list FileSystemDirectoryHandle) (s : State) :
  Forall (fun f => fileType f = image /\ isImageName (fileName f) = true) (files s) ->
  (currentDirectoryHandle s = None -> k = [] /\ files s = [] /\ folders s = []) ->
  Session.hookSettled (loadFilesFromDirectory P h (setDirectoryStack k s)) /\
  (currentDirectoryHandle (loadFilesFromDirectory P h (setDirectoryStack k s)) = None ->
   currentDirectoryHandle s = None).
Proof.
  intros Himg Hroot. unfold Session.hookSettled.
  destruct (readDirectory P h) as [[newFiles newFolders]|message] eqn:Hread.
  - rewrite (load_success _ _ _ _ _ Hread). cbn.
    repeat split; try discriminate. exact (readDirectory_images _ _ _ _ Hread).
  - rewrite (load_failure _ _ _ _ Hread). cbn.
    split; [|intros H; exact H].
    split; [reflexivity|]. split; [exact Hroot|exact Himg].
Qed.

Lemma hook_navigate_settled (P : Platform) (t : App.Transition) (a : App.State) :
  Session.hookSettled (App.hook a) ->
  Session.hookSettled (App.hook (App.navigate P t a)) /\
  (currentDirectoryHandle (App.hook (App.navigate P t a)) = None ->
   currentDirectoryHandle (App.hook a) = None).
Proof.
  intros Hs. pose proof Hs as (Hidle & Hroot & Himg).
  rewrite hook_navigate.
  destruct t as [picked now|h|folder| |h index].
  - destruct picked as [h| |]; cbn [openDirectory fst].
    + apply load_settled; [exact Himg|]. intros Hnone. destruct (Hroot Hnone) as (_ & ? & ?). repeat split; assumption.
    + now split.
    + split; [|intros H; exact H]. split; [exact Hidle|split; [exact Hroot|exact Himg]].
  - unfold openDirectoryWithHandle.
    apply load_settled; [exact Himg|]. intros Hnone. destruct (Hroot Hnone) as (_ & ? & ?). repeat split; assumption.
  - unfold navigateToDirectory.
    destruct (currentDirectoryHandle (App.hook a)) as [current|] eqn:Hcur.
    + destruct (load_settled P (folderHandle folder) (directoryStack (App.hook a) ++ [current])
                  (App.hook a) Himg) as [H1 H2]; [rewrite Hcur; discriminate|].
      split; [exact H1|]. intros Hnone. rewrite <- Hcur. now apply H2.
    + destruct (Hroot eq_refl) as (Hstack & Hfiles & Hfolders).
      replace (App.hook a) with (setDirectoryStack [] (App.hook a)) at 1 2
        by (destruct (App.hook a); cbn in *; now subst).
      destruct (load_settled P (folderHandle folder) [] (App.hook a) Himg) as [H1 H2];
        [intros _; repeat split; assumption|].
      split; [exact H1|reflexivity].
  - unfold navigateUp.
    destruct (directoryStack (App.hook a)) as [|top rest] eqn:Hstack; [now split|].
    apply load_settled; [exact Himg|]. intros Hnone.
    destruct (Hroot Hnone) as (Hempty & _). congruence.
  - destruct (index =? Z.of_nat (List.length (path (App.hook a))) - 1)%Z; [now split|].
    unfold navigateToDirectory. cbn [folderHandle].
    apply load_settled; [exact Himg|]. intros Hnone. destruct (Hroot Hnone) as (_ & ? & ?). repeat split; assumption.
Qed.

(** The store's directory after a transition: the hook's when it has one. *)
Lemma navigate_store_directory (P : Platform) (t : App.Transition) (a : App.State) :
  AppStore.currentDirectoryHandle (AppStore.state (App.store (App.navigate P t a))) =
  match currentDirectoryHandle (App.hook (App.navigate P t a)) with
  | Some h => Some h
  | None => AppStore.currentDirectoryHandle (AppStore.state (App.store a))
  end \/ App.navigate P t a = a.
Proof.
  assert (Heff : forall s, AppStore.currentDirectoryHandle
                   (AppStore.state (App.store (App.effects (App.setHook s a)))) =
                 match currentDirectoryHandle s with
                 | Some h => Some h
                 | None => AppStore.currentDirectoryHandle (AppStore.state (App.store a))
                 end).
  { intros s. unfold App.effects. cbn. now destruct (currentDirectoryHandle s). }
  destruct t as [picked now|h|folder| |h index]; cbn [App.navigate].
  - left. unfold App.handleOpenPicker.
    destruct (openDirectory P picked (App.hook a)) as [s opened].
    destruct opened as [dir|]; [|apply Heff].
    cbn [App.setStore App.store App.hook].
    unfold AppStore.addFavoriteDirectory.
    rewrite (proj2 (saveGuarded_view _ _)). apply Heff.
  - left. apply Heff.
  - left. apply Heff.
  - left. apply Heff.
  - unfold App.handleBreadcrumbNavigate.
    destruct (index =? Z.of_nat (List.length (path (App.hook a))) - 1)%Z; [now right|].
    left. apply Heff.
Qed.

Lemma navigate_selection (P : Platform) (t : App.Transition) (a : App.State) :
  App.selectedFile (App.navigate P t a) = App.selectedFile a /\
  App.isPreviewOpen (App.navigate P t a) = App.isPreviewOpen a.
Proof.
  destruct t as [picked now|h|folder| |h index]; cbn [App.navigate]; try (split; reflexivity).
  - unfold App.handleOpenPicker.
    destruct (openDirectory P picked (App.hook a)) as [s [dir|]]; split; reflexivity.
  - unfold App.handleBreadcrumbNavigate.
    destruct (index =? Z.of_nat (List.length (path (App.hook a))) - 1)%Z; split; reflexivity.
Qed.

Lemma invariant_hookSettled (a : App.State) :
  Session.Invariant a -> Session.hookSettled (App.hook a).
Proof. intros [Hm Hd Hi Hr Himg Hp]. split; [exact Hi|split; [exact Hr|exact Himg]]. Qed.

Lemma navigate_invariant (P : Platform) (t : App.Transition) (a : App.State) :
  Session.Invariant a -> Session.Invariant (App.navigate P t a).
Proof.
  intros Ha. pose proof Ha as [Hm Hd Hi Hr Himg Hp].
  destruct (hook_navigate_settled P t a (invariant_hookSettled a Ha))
    as ((Hidle' & Hroot' & Himg') & Hmono).
  destruct (navigate_selection P t a) as [Hsel Hopen].
  constructor.
  - now apply navigate_mirrored.
  - destruct (navigate_store_directory P t a) as [Hstore|Hsame].
    + rewrite Hstore.
      destruct (currentDirectoryHandle (App.hook (App.navigate P t a))) eqn:Hcur; [reflexivity|].
      rewrite Hd. now apply Hmono.
    + now rewrite Hsame.
  - exact Hidle'.
  - exact Hroot'.
  - exact Himg'.
  - now rewrite Hsel, Hopen.
Qed.

Lemma handleImageClick_invariant (file : FileSystemFile) (a : App.State) :
  Session.Invariant a -> Session.Invariant (App.handleImageClick file a).
Proof.
  intros [Hm Hd Hi Hr Himg Hp]. unfold App.handleImageClick.
  destruct (App.selectedFile a) as [sel|] eqn:Hsel;
    [destruct (String.eqb (fileName sel) (fileName file))|];
    constructor; try assumption; cbn; rewrite ?Hsel; split; intros; (reflexivity || discriminate).
Qed.

Lemma handleNext_invariant (a : App.State) :
  Session.Invariant a -> Session.Invariant (App.handleNext a).
Proof.
  intros Ha. destruct (handleNext_shape a) as (sel & -> & Hsome & Hnone).
  now apply setSelectedFile_invariant.
Qed.

Lemma handlePrev_invariant (a : App.State) :
  Session.Invariant a -> Session.Invariant (App.handlePrev a).
Proof.
  intros Ha. destruct (handlePrev_shape a) as (sel & -> & Hsome & Hnone).
  now apply setSelectedFile_invariant.
Qed.

Lemma handleKeyDown_invariant (key : string) (a : App.State) :
  Session.Invariant a -> Session.Invariant (PreviewPanel.handleKeyDown key a).
Proof.
  intros Ha. unfold PreviewPanel.handleKeyDown.
  destruct (negb (App.isPreviewOpen a)); [exact Ha|].
  destruct (App.selectedFile a).
  - destruct (String.eqb key "ArrowRight"); [apply handleNext_invariant|];
      (destruct (String.eqb key "ArrowLeft"); [apply handlePrev_invariant|]);
      (destruct (String.eqb key "Escape"); [apply handleClose_invariant|]); exact Ha.
  - destruct (String.eqb key "Escape"); [now apply handleClose_invariant|exact Ha].
Qed.

Lemma dispatch_invariant (e : Session.Event) (a : App.State) :
  Session.Invariant a -> Session.Invariant (Session.dispatch e a).
Proof.
  intros Ha.
  destruct e as [P t|file| | | |key|now|dir|failure]; cbn [Session.dispatch].
  - now apply navigate_invariant.
  - now apply handleImageClick_invariant.
  - now apply handleNext_invariant.
  - now apply handlePrev_invariant.
  - now apply handleClose_invariant.
  - now apply handleKeyDown_invariant.
  - unfold Session.toggleCurrent.
    destruct (currentDirectoryHandle (App.hook a)); [|exact Ha].
    apply setStore_invariant; [exact Ha| |]; unfold AppStore.toggleFavorite;
      apply saveGuarded_view.
  - unfold Sidebar.clickRemove.
    apply setStore_invariant; [exact Ha| |]; apply removeFavoriteDirectory_view.
  - unfold Session.setFailure. apply setStore_invariant; [exact Ha| |]; reflexivity.
Qed.

Lemma fresh_invariant (w : AppStore.World) :
  AppStore.files (AppStore.state w) = [] ->
  AppStore.currentDirectoryHandle (AppStore.state w) = None ->
  Session.Invariant (App.mkState FileSystem.initial w None false).
Proof.
  intros Hfiles Hcur. constructor; cbn.
  - exact Hfiles.
  - exact Hcur.
  - reflexivity.
  - intros _. repeat split.
  - constructor.
  - split; [discriminate|intros H; now destruct H].
Qed.

Lemma mounted_invariant (b : AppStore.Backend) : Session.Invariant (Session.mounted b).
Proof.
  unfold Session.mounted, AppStore.loadFavoriteDirectories, App.setStore, AppStore.idbGet.
  cbn [App.initial App.store App.hook App.selectedFile App.isPreviewOpen
       AppStore.initial AppStore.backend].
  destruct (AppStore.failure b); [|destruct (AppStore.stored b)];
    apply fresh_invariant; reflexivity.
Qed.

(** X12.  In every state a session can reach (the application mounted on
    any backend, then any events in any order, with any platform behaviour
    and any backend failures), the store mirrors the hook's listing and
    directory, nothing is left loading, without a current directory stack and
    listing are empty, every listed file is an image by its name, and the
    preview is open exactly when a file is selected. *)
Theorem session_invariant (b : AppStore.Backend) (events : list Session.Event) :
  Session.Invariant (Session.run events (Session.mounted b)).
Proof.
  unfold Session.run.
  pose proof (mounted_invariant b) as Hinit.
  revert Hinit. generalize (Session.mounted b).
  induction events as [|e events IH]; intros a Ha; cbn [fold_left]; [exact Ha|].
  apply IH. now apply dispatch_invariant.
Qed.

End SessionFacts.

(** * Favourites: order, names, persistence *)
Section FavoritesMore.

Import FileSystem.

Let newest (x y : AppStore.FavoriteDirectory) : Prop :=
  (AppStore.addedAt y <= AppStore.addedAt x)%Z.

Lemma newestFirst_sorted (l : list AppStore.FavoriteDirectory) :
  Sorted.StronglySorted newest (sort AppStore.newestFirst l).
Proof.
  pose proof (sort_sorted AppStore.newestFirst) as H.
  eapply Sorted.StronglySorted_ind with (P := fun l => Sorted.StronglySorted newest l);
    [constructor| |apply H].
  - intros x l' _ IH Hx. constructor; [exact IH|].
    eapply Forall_impl; [|exact Hx]. unfold newest, AppStore.newestFirst. intros y. lia.
  - unfold AppStore.newestFirst. intros. lia.
  - unfold AppStore.newestFirst. intros. lia.
Qed.

Lemma filter_sorted {A : Type} (R : A -> A -> Prop) (p : A -> bool) (l : list A) :
  Sorted.StronglySorted R l -> Sorted.StronglySorted R (filter p l).
Proof.
  induction 1 as [|x l Hl IH Hx]; cbn [filter]; [constructor|].
  destruct (p x); [|exact IH]. constructor; [exact IH|].
  apply Forall_forall. intros y Hy. apply filter_In in Hy.
  exact (proj1 (Forall_forall _ _) Hx y (proj1 Hy)).
Qed.

Lemma filter_names_nodup (p : AppStore.FavoriteDirectory -> bool)
  (l : list AppStore.FavoriteDirectory) :
  NoDup (map AppStore.name l) -> NoDup (map AppStore.name (filter p l)).
Proof.
  induction l as [|d l IH]; cbn [map filter]; intros Hnd; [constructor|].
  inversion Hnd as [|? ? Hnotin Hrest]; subst.
  destruct (p d); [|now apply IH]. cbn [map]. constructor; [|now apply IH].
  intros Hin. apply Hnotin. apply in_map_iff in Hin. destruct Hin as (e & He & Hin).
  apply filter_In in Hin. apply in_map_iff. exists e. now split.
Qed.

(** A name [findIndex] does not find is borne by no entry. *)
Lemma unnamed_absent (n : string) (l : list AppStore.FavoriteDirectory) :
  (findIndex (AppStore.named n) l < 0)%Z -> ~ In n (map AppStore.name l).
Proof.
  intros Hneg Hin. apply in_map_iff in Hin. destruct Hin as (d & Hname & Hd).
  pose proof (findIndex_found (AppStore.named n) l d Hd) as Hfound.
  unfold AppStore.named in Hfound at 1. rewrite Hname, String.eqb_refl in Hfound.
  specialize (Hfound eq_refl). lia.
Qed.

Lemma upserted_tidy (now : Z) (h : FileSystemDirectoryHandle)
  (l : list AppStore.FavoriteDirectory) :
  NoDup (map AppStore.name l) -> Session.tidy (AppStore.upserted now h l).
Proof.
  intros Hnd. split; [apply newestFirst_sorted|].
  eapply Permutation_NoDup; [symmetry; apply upserted_names|].
  destruct (Z.leb_spec 0 (findIndex (AppStore.named (dirName h)) l)) as [_|Hneg]; [exact Hnd|].
  apply NoDup_app; [exact Hnd|repeat constructor; intros []|].
  intros x Hx [<-|[]]. now apply (unnamed_absent _ _ Hneg).
Qed.

Lemma toggled_tidy (now : Z) (h : FileSystemDirectoryHandle)
  (l : list AppStore.FavoriteDirectory) :
  NoDup (map AppStore.name l) -> Session.tidy (AppStore.toggled now h l).
Proof.
  intros Hnd. split; [apply newestFirst_sorted|].
  unfold AppStore.toggled.
  eapply Permutation_NoDup; [symmetry; apply Permutation_map, sort_permutation|].
  destruct (Z.leb_spec 0 (findIndex (AppStore.named (dirName h)) l)) as [_|Hneg].
  - now apply filter_names_nodup.
  - rewrite map_app. apply NoDup_app; [exact Hnd|repeat constructor; intros []|].
    intros x Hx [<-|[]]. now apply (unnamed_absent _ _ Hneg).
Qed.

Lemma removed_tidy (n : string) (l : list AppStore.FavoriteDirectory) :
  Session.tidy l -> Session.tidy (AppStore.removed n l).
Proof.
  intros [Hs Hnd]. split; [now apply filter_sorted|now apply filter_names_nodup].
Qed.

Lemma saveGuarded_tidy (v : list AppStore.FavoriteDirectory) (w : AppStore.World) :
  Session.tidy v -> Session.tidyStore w ->
  Session.tidyStore (fst (AppStore.saveGuarded v (AppStore.setFavorites v w))).
Proof.
  intros Hv [_ Hstored]. unfold AppStore.saveGuarded, AppStore.idbSet.
  cbn [AppStore.backend AppStore.setFavorites].
  destruct (AppStore.failure (AppStore.backend w)); split; cbn; assumption.
Qed.

Lemma dispatch_tidy (e : Session.Event) (a : App.State) :
  Session.tidyStore (App.store a) -> Session.tidyStore (App.store (Session.dispatch e a)).
Proof.
  intros Hw. pose proof Hw as [[Hs Hnd] Hstored].
  destruct e as [P t|file| | | |key|now|dir|failure]; cbn [Session.dispatch].
  - assert (Heff : forall s, Session.tidyStore (App.store (App.effects (App.setHook s a)))).
    { intros s. unfold App.effects. cbn.
      destruct (currentDirectoryHandle s); exact Hw. }
    destruct t as [picked now|h|folder| |h index]; cbn [App.navigate]; try apply Heff.
    + unfold App.handleOpenPicker.
      destruct (openDirectory P picked (App.hook a)) as [s [dir|]]; [|apply Heff].
      cbn [App.setStore App.store]. unfold AppStore.addFavoriteDirectory.
      specialize (Heff s). pose proof Heff as [[_ Hnd'] _].
      apply saveGuarded_tidy; [now apply upserted_tidy|exact Heff].
    + unfold App.handleBreadcrumbNavigate.
      destruct (index =? Z.of_nat (List.length (path (App.hook a))) - 1)%Z; [exact Hw|apply Heff].
  - unfold App.handleImageClick.
    destruct (App.selectedFile a) as [sel|];
      [destruct (String.eqb (fileName sel) (fileName file))|]; exact Hw.
  - destruct (handleNext_shape a) as (sel & -> & _). exact Hw.
  - destruct (handlePrev_shape a) as (sel & -> & _). exact Hw.
  - exact Hw.
  - unfold PreviewPanel.handleKeyDown.
    destruct (negb (App.isPreviewOpen a)); [exact Hw|].
    destruct (App.selectedFile a).
    + destruct (String.eqb key "ArrowRight"), (String.eqb key "ArrowLeft"),
        (String.eqb key "Escape");
        repeat match goal with
        | |- context [App.handleNext ?x] =>
            let sel := fresh "sel" in destruct (handleNext_shape x) as (sel & -> & _)
        | |- context [App.handlePrev ?x] =>
            let sel := fresh "sel" in destruct (handlePrev_shape x) as (sel & -> & _)
        end; exact Hw.
    + destruct (String.eqb key "Escape"); exact Hw.
  - unfold Session.toggleCurrent.
    destruct (currentDirectoryHandle (App.hook a)); [|exact Hw].
    cbn [App.setStore App.store]. unfold AppStore.toggleFavorite.
    apply saveGuarded_tidy; [now apply toggled_tidy|exact Hw].
  - unfold Sidebar.clickRemove. cbn [App.setStore App.store].
    unfold AppStore.removeFavoriteDirectory, AppStore.idbSet.
    cbn [AppStore.backend AppStore.setFavorites].
    assert (Hrem : Session.tidy (AppStore.removed (AppStore.name dir)
                     (AppStore.favoriteDirectories (AppStore.state (App.store a)))))
      by now apply removed_tidy.
    destruct (AppStore.failure (AppStore.backend (App.store a))); split; cbn; assumption.
  - unfold Session.setFailure. cbn. split; [now split|exact Hstored].
Qed.

(** X13.  If what the backend holds at mount is newest-first with one entry
    per name (or it holds nothing), then in every state a session can reach
    the favourites shown, and the favourites stored, are newest-first with
    one entry per name. *)
Theorem session_favorites_tidy (b : AppStore.Backend) (events : list Session.Event) :
  match AppStore.stored b with Some v => Session.tidy v | None => True end ->
  Session.tidyStore (App.store (Session.run events (Session.mounted b))).
Proof.
  intros Hb.
  assert (Hinit : Session.tidyStore (App.store (Session.mounted b))).
  { unfold Session.mounted, AppStore.loadFavoriteDirectories, App.setStore, AppStore.idbGet.
    cbn [App.initial App.store AppStore.initial AppStore.backend].
    destruct (AppStore.failure b).
    - split; [split; constructor|exact Hb].
    - destruct (AppStore.stored b) as [v|] eqn:Hv.
      + split; [exact Hb|]. cbn. rewrite Hv. exact Hb.
      + split; [split; constructor|]. cbn. now rewrite Hv. }
  unfold Session.run. revert Hinit. generalize (Session.mounted b).
  induction events as [|e events IH]; intros a Ha; cbn [fold_left]; [exact Ha|].
  apply IH. now apply dispatch_tidy.
Qed.

Lemma session_favorites_tidy_witness :
  AppStore.favoriteDirectories
    (AppStore.state (App.store (Session.run Samples.events (Session.mounted Samples.returning)))) =
    [AppStore.mkFavorite "photos" Demo.photos 100] /\
  Session.tidyStore (App.store (Session.run Samples.events (Session.mounted Samples.returning))).
Proof.
  split; [reflexivity|].
  apply (session_favorites_tidy Samples.returning Samples.events).
  split.
  - repeat constructor; cbn; lia.
  - repeat constructor; cbn; intuition discriminate.
Defined.

Lemma effects_favorites (s : State) (a : App.State) :
  AppStore.favoriteDirectories (AppStore.state (App.store (App.effects (App.setHook s a)))) =
  AppStore.favoriteDirectories (AppStore.state (App.store a)).
Proof. unfold App.effects. cbn. now destruct (currentDirectoryHandle s). Qed.

(** X14.  Entering a folder, going up, jumping by breadcrumb and opening
    from the history list leave the favourites, the backend and the store's
    console as they were: opening a favourite does not move it to the top. *)
Theorem navigation_keeps_favorites (P : Platform) (t : App.Transition) (a : App.State) :
  (forall picked now, t <> App.OpenPicker picked now) ->
  AppStore.favoriteDirectories (AppStore.state (App.store (App.navigate P t a))) =
    AppStore.favoriteDirectories (AppStore.state (App.store a)) /\
  AppStore.backend (App.store (App.navigate P t a)) = AppStore.backend (App.store a) /\
  AppStore.console (App.store (App.navigate P t a)) = AppStore.console (App.store a).
Proof.
  intros Hnot.
  assert (Heff : forall s,
    AppStore.favoriteDirectories (AppStore.state (App.store (App.effects (App.setHook s a)))) =
      AppStore.favoriteDirectories (AppStore.state (App.store a)) /\
    AppStore.backend (App.store (App.effects (App.setHook s a))) = AppStore.backend (App.store a) /\
    AppStore.console (App.store (App.effects (App.setHook s a))) = AppStore.console (App.store a)).
  { intros s. unfold App.effects. cbn. destruct (currentDirectoryHandle s); repeat split. }
  destruct t as [picked now|h|folder| |h index]; cbn [App.navigate]; try apply Heff.
  - now destruct (Hnot picked now).
  - unfold App.handleBreadcrumbNavigate.
    destruct (index =? Z.of_nat (List.length (path (App.hook a))) - 1)%Z; [repeat split|apply Heff].
Qed.

Lemma navigation_keeps_favorites_witness :
  let a := App.setStore (Demo.twoFavorites Demo.healthy) (App.initial Demo.healthy) in
  AppStore.favoriteDirectories
    (AppStore.state (App.store (Sidebar.clickEntry Demo.platform
                                  (AppStore.mkFavorite "photos" Demo.photos 100) a))) =
  [AppStore.mkFavorite "trip" Demo.trip 200; AppStore.mkFavorite "photos" Demo.photos 100].
Proof.
  apply (navigation_keeps_favorites Demo.platform (App.OpenHistory Demo.photos)
           (App.setStore (Demo.twoFavorites Demo.healthy) (App.initial Demo.healthy))).
  intros picked now. discriminate.
Defined.

(** X15.  Picking a directory upserts it into the favourites with the
    time of the pick whether or not its listing came back; a cancelled or
    failed picker leaves the favourites alone. *)
Theorem picker_records_favorite (P : Platform) (picked : Picked) (now : Z) (a : App.State) :
  AppStore.favoriteDirectories (AppStore.state (App.store (App.handleOpenPicker P picked now a))) =
  match picked with
  | PickedDirectory h =>
      AppStore.upserted now h (AppStore.favoriteDirectories (AppStore.state (App.store a)))
  | _ => AppStore.favoriteDirectories (AppStore.state (App.store a))
  end.
Proof.
  unfold App.handleOpenPicker.
  destruct picked as [h| |]; cbn [openDirectory].
  - cbn [App.setStore App.store]. rewrite addFavoriteDirectory_favorites.
    now rewrite effects_favorites.
  - apply effects_favorites.
  - apply effects_favorites.
Qed.

Lemma mapAt_In {A : Type} (f : A -> A) (l : list A) (i : nat) (x : A) :
  In x (mapAt f l i) <->
  (exists y, nth_error l i = Some y /\ x = f y) \/
  (exists j, j <> i /\ nth_error l j = Some x).
Proof.
  revert i. induction l as [|z l IH]; intros i.
  - cbn. split; [intros []|]. intros [(y & Hy & _)|(j & _ & Hj)].
    + now destruct i.
    + now destruct j.
  - destruct i as [|i]; cbn [mapAt In nth_error].
    + split.
      * intros [<-|Hin]; [left; now exists z|].
        right. apply In_nth_error in Hin. destruct Hin as (j & Hj). exists (S j). now split.
      * intros [(y & [= <-] & ->)|(j & Hne & Hj)]; [now left|].
        destruct j as [|j]; [contradiction|]. right. eapply nth_error_In, Hj.
    + rewrite IH. split.
      * intros [<-|[(y & Hy & ->)|(j & Hne & Hj)]].
        -- right. exists 0%nat. now split.
        -- left. now exists y.
        -- right. exists (S j). split; [congruence|exact Hj].
      * intros [(y & Hy & ->)|(j & Hne & Hj)].
        -- right. left. now exists y.
        -- destruct j as [|j]; [left; now injection Hj|].
           right. right. exists j. split; [congruence|exact Hj].
Qed.

(** X16.  With one entry per name, an upsert leaves exactly one entry of
    the handle's name, stamped with the time given; an entry that existed
    keeps the handle it had; entries of other names are untouched. *)
Theorem upsert_touches_one_entry (now : Z) (h : FileSystemDirectoryHandle)
  (favs : list AppStore.FavoriteDirectory) :
  NoDup (map AppStore.name favs) ->
  let favs' := AppStore.upserted now h favs in
  (exists d, In d favs' /\ AppStore.name d = dirName h) /\
  (forall d, In d favs' -> AppStore.name d = dirName h ->
             AppStore.addedAt d = now /\
             (forall old, In old favs -> AppStore.name old = dirName h ->
                          AppStore.handle d = AppStore.handle old) /\
             ((forall old, In old favs -> AppStore.name old <> dirName h) ->
              AppStore.handle d = h)) /\
  (forall d, AppStore.name d <> dirName h -> (In d favs' <-> In d favs)).
Proof.
  intros Hnd favs'.
  assert (Hperm : forall d, In d favs' <->
            In d (if (0 <=? findIndex (AppStore.named (dirName h)) favs)%Z
                  then mapAt (fun d => AppStore.mkFavorite (AppStore.name d) (AppStore.handle d) now)
                             favs (Z.to_nat (findIndex (AppStore.named (dirName h)) favs))
                  else favs ++ [AppStore.mkFavorite (dirName h) h now])).
  { intros d. subst favs'. unfold AppStore.upserted. split; intros Hin.
    - eapply Permutation_in; [apply sort_permutation|exact Hin].
    - eapply Permutation_in; [symmetry; apply sort_permutation|exact Hin]. }
  split.
  { pose proof (upserted_has_name now h favs) as Hpos.
    destruct (findIndex_present _ _ _ eq_refl Hpos) as (d & Hd & Hname & _).
    exists d. split; [eapply nth_error_In, Hd|]. now apply String.eqb_eq. }
  destruct (Z.leb_spec 0 (findIndex (AppStore.named (dirName h)) favs)) as [Hpos|Hneg].
  - destruct (findIndex_present _ _ _ eq_refl Hpos) as (cur & Hcur & Hname & _).
    apply String.eqb_eq in Hname.
    set (i := Z.to_nat (findIndex (AppStore.named (dirName h)) favs)) in *.
    assert (Hunique : forall j e, nth_error favs j = Some e -> AppStore.name e = dirName h -> j = i).
    { intros j e Hj He.
      apply (proj1 (NoDup_nth_error (map AppStore.name favs)) Hnd).
      - rewrite length_map. apply nth_error_Some. congruence.
      - rewrite !nth_error_map, Hj, Hcur. cbn. congruence. }
    split.
    + intros d Hin Hd. apply Hperm, mapAt_In in Hin.
      destruct Hin as [(y & Hy & ->)|(j & Hne & Hj)].
      * cbn. split; [reflexivity|]. split.
        -- intros old Hold Hname'. apply In_nth_error in Hold. destruct Hold as (j & Hj).
           rewrite (Hunique j old Hj Hname') in Hj. congruence.
        -- intros Hnone. exfalso. apply (Hnone cur); [eapply nth_error_In, Hcur|exact Hname].
      * now destruct (Hne (Hunique j d Hj Hd)).
    + intros d Hd. rewrite Hperm, mapAt_In. split.
      * intros [(y & Hy & ->)|(j & _ & Hj)].
        -- cbn in Hd. rewrite Hy in Hcur. injection Hcur as ->. contradiction.
        -- eapply nth_error_In, Hj.
      * intros Hin. right. apply In_nth_error in Hin. destruct Hin as (j & Hj).
        exists j. split; [|exact Hj]. intros ->. rewrite Hj in Hcur. injection Hcur as ->.
        contradiction.
  - pose proof (unnamed_absent _ _ Hneg) as Habsent.
    split.
    + intros d Hin Hd. apply Hperm, in_app_or in Hin. destruct Hin as [Hin|[<-|[]]].
      * exfalso. apply Habsent. rewrite <- Hd. now apply in_map.
      * cbn. split; [reflexivity|]. split; [|reflexivity].
        intros old Hold Hname. exfalso. apply Habsent. rewrite <- Hname. now apply in_map.
    + intros d Hd. rewrite Hperm, in_app_iff. split; [|now left].
      intros [Hin|[<-|[]]]; [exact Hin|]. now destruct Hd.
Qed.

Lemma upsert_touches_one_entry_witness :
  exists d, In d (AppStore.upserted 300 (mkDir "photos" 7)
                    [AppStore.mkFavorite "trip" Demo.trip 200;
                     AppStore.mkFavorite "photos" Demo.photos 100]) /\
            AppStore.name d = "photos"%string /\ AppStore.addedAt d = 300%Z /\
            AppStore.handle d = Demo.photos.
Proof.
  assert (Hnd : NoDup (map AppStore.name
                         [AppStore.mkFavorite "trip" Demo.trip 200;
                          AppStore.mkFavorite "photos" Demo.photos 100]))
    by (repeat constructor; cbn; intuition discriminate).
  destruct (upsert_touches_one_entry 300 (mkDir "photos" 7) _ Hnd) as ((d & Hin & Hname) & Hstamp & _).
  destruct (Hstamp d Hin Hname) as (Hat & Hkeep & _).
  exists d. repeat split; try assumption.
  apply (Hkeep (AppStore.mkFavorite "photos" Demo.photos 100)); [right; now left|reflexivity].
Defined.

(** X17.  After a removal no favourite bears the name removed, entries of
    other names are all still there, and removing a name that no entry bears
    leaves the list exactly as it was; this holds whether or not the write
    that follows goes through. *)
Theorem removal_in_memory (n : string) (w : AppStore.World) :
  let favs := AppStore.favoriteDirectories (AppStore.state w) in
  let favs' := AppStore.favoriteDirectories
                 (AppStore.state (fst (AppStore.removeFavoriteDirectory n w))) in
  (forall d, In d favs' -> AppStore.name d <> n) /\
  (forall d, AppStore.name d <> n -> (In d favs' <-> In d favs)) /\
  ((forall d, In d favs -> AppStore.name d <> n) -> favs' = favs).
Proof.
  cbv zeta. rewrite removeFavoriteDirectory_favorites. unfold AppStore.removed.
  split; [|split].
  - intros d Hin Hname. apply filter_In in Hin. destruct Hin as [_ Hkeep].
    unfold AppStore.named in Hkeep. rewrite Hname, String.eqb_refl in Hkeep. discriminate.
  - intros d Hname. rewrite filter_In. split; [now intros [Hin _]|].
    intros Hin. split; [exact Hin|]. unfold AppStore.named.
    now destruct (String.eqb_spec (AppStore.name d) n).
  - intros Habsent.
    induction (AppStore.favoriteDirectories (AppStore.state w)) as [|d l IH]; [reflexivity|].
    cbn [filter]. unfold AppStore.named at 1.
    destruct (String.eqb_spec (AppStore.name d) n) as [Heq|_].
    + now destruct (Habsent d (or_introl eq_refl)).
    + cbn [negb]. f_equal. apply IH. intros e He. apply Habsent. now right.
Qed.

Lemma filter_permutation {A : Type} (p : A -> bool) (l l' : list A) :
  Permutation l l' -> Permutation (filter p l) (filter p l').
Proof.
  induction 1 as [|x l l' _ IH|x y l|l l' l'' _ IH1 _ IH2]; cbn [filter].
  - constructor.
  - destruct (p x); [now constructor|exact IH].
  - destruct (p x), (p y); try reflexivity. apply perm_swap.
  - now transitivity (filter p l').
Qed.

(** X18.  Toggling a directory that is not among the favourites, and
    toggling it again, gives back the favourites one had, up to order: the
    first toggle adds one entry, the second removes it and nothing else. *)
Theorem toggle_twice (now later : Z) (h : FileSystemDirectoryHandle)
  (favs : list AppStore.FavoriteDirectory) :
  (forall d, In d favs -> AppStore.name d <> dirName h) ->
  Permutation (AppStore.toggled now h favs) (favs ++ [AppStore.mkFavorite (dirName h) h now]) /\
  Permutation (AppStore.toggled later h (AppStore.toggled now h favs)) favs.
Proof.
  intros Habsent.
  assert (Hneg : findIndex (AppStore.named (dirName h)) favs = (-1)%Z).
  { apply findIndex_absent. intros d Hd. unfold AppStore.named.
    destruct (String.eqb_spec (AppStore.name d) (dirName h)) as [Heq|]; [|reflexivity].
    now destruct (Habsent d Hd). }
  assert (Hfirst : Permutation (AppStore.toggled now h favs)
                               (favs ++ [AppStore.mkFavorite (dirName h) h now])).
  { unfold AppStore.toggled. rewrite Hneg. cbn [Z.leb Z.compare]. apply sort_permutation. }
  split; [exact Hfirst|].
  unfold AppStore.toggled at 1.
  assert (Hpos : (0 <= findIndex (AppStore.named (dirName h)) (AppStore.toggled now h favs))%Z).
  { apply (findIndex_found _ _ (AppStore.mkFavorite (dirName h) h now)).
    - eapply Permutation_in; [symmetry; exact Hfirst|]. apply in_or_app. right. now left.
    - unfold AppStore.named. cbn. apply String.eqb_refl. }
  destruct (Z.leb_spec 0 (findIndex (AppStore.named (dirName h)) (AppStore.toggled now h favs)));
    [|lia].
  rewrite sort_permutation, (filter_permutation _ _ _ Hfirst), filter_app.
  cbn [filter]. unfold AppStore.named at 2. cbn [AppStore.name].
  rewrite String.eqb_refl. cbn [negb]. rewrite app_nil_r.
  assert (Hall : filter (fun d => negb (AppStore.named (dirName h) d)) favs = favs).
  { clear -Habsent. induction favs as [|d l IH]; [reflexivity|]. cbn [filter].
    unfold AppStore.named at 1.
    destruct (String.eqb_spec (AppStore.name d) (dirName h)) as [Heq|_].
    - now destruct (Habsent d (or_introl eq_refl)).
    - cbn [negb]. f_equal. apply IH. intros e He. apply Habsent. now right. }
  now rewrite Hall.
Qed.

Lemma toggle_twice_witness :
  Permutation
    (AppStore.toggled 400 Demo.raw
       (AppStore.toggled 300 Demo.raw
          [AppStore.mkFavorite "trip" Demo.trip 200; AppStore.mkFavorite "photos" Demo.photos 100]))
    [AppStore.mkFavorite "trip" Demo.trip 200; AppStore.mkFavorite "photos" Demo.photos 100].
Proof.
  apply (toggle_twice 300 400 Demo.raw).
  intros d [<-|[<-|[]]]; discriminate.
Defined.

(** X19.  While the backend accepts writes, every upsert, toggle and
    removal leaves in storage exactly the favourites it leaves in memory, so
    that loading the favourites right afterwards changes nothing. *)
Theorem stored_is_shown (now : Z) (h : FileSystemDirectoryHandle) (n : string)
  (w : AppStore.World) :
  AppStore.failure (AppStore.backend w) = None ->
  let settled (w' : AppStore.World) :=
    AppStore.stored (AppStore.backend w') =
      Some (AppStore.favoriteDirectories (AppStore.state w')) /\
    AppStore.loadFavoriteDirectories w' = (w', Resolved tt) in
  settled (fst (AppStore.addFavoriteDirectory now h w)) /\
  settled (fst (AppStore.toggleFavorite now h w)) /\
  settled (fst (AppStore.removeFavoriteDirectory n w)).
Proof.
  intros Hok. cbv zeta.
  unfold AppStore.addFavoriteDirectory, AppStore.toggleFavorite, AppStore.removeFavoriteDirectory,
    AppStore.saveGuarded, AppStore.idbSet, AppStore.loadFavoriteDirectories, AppStore.idbGet.
  cbn [AppStore.backend AppStore.setFavorites]. rewrite Hok. cbn.
  destruct w as [[cur fs favs loading] backend console]. cbn. repeat split.
Qed.

Lemma stored_is_shown_witness :
  AppStore.stored
    (AppStore.backend (fst (AppStore.removeFavoriteDirectory "trip" (Demo.twoFavorites Demo.healthy)))) =
  Some [AppStore.mkFavorite "photos" Demo.photos 100].
Proof.
  destruct (stored_is_shown 0 Demo.photos "trip" (Demo.twoFavorites Demo.healthy) eq_refl)
    as (_ & _ & Hstored & _).
  exact Hstored.
Defined.

(** X20.  Upsert, toggle and load never reject, whatever the backend does;
    and a load that finds nothing stored, or whose read fails, leaves the
    store's state as it was. *)
Theorem store_operations_resolve (now : Z) (h : FileSystemDirectoryHandle) (w : AppStore.World) :
  snd (AppStore.addFavoriteDirectory now h w) = Resolved tt /\
  snd (AppStore.toggleFavorite now h w) = Resolved tt /\
  snd (AppStore.loadFavoriteDirectories w) = Resolved tt /\
  (AppStore.stored (AppStore.backend w) = None \/ AppStore.failure (AppStore.backend w) <> None ->
   AppStore.state (fst (AppStore.loadFavoriteDirectories w)) = AppStore.state w).
Proof.
  unfold AppStore.addFavoriteDirectory, AppStore.toggleFavorite, AppStore.saveGuarded,
    AppStore.idbSet, AppStore.loadFavoriteDirectories, AppStore.idbGet.
  cbn [AppStore.backend AppStore.setFavorites].
  destruct (AppStore.failure (AppStore.backend w)) as [e|];
    [|destruct (AppStore.stored (AppStore.backend w)) as [v|]]; cbn;
    repeat split; intros [H|H]; congruence.
Qed.

End FavoritesMore.

(** * Selection and preview: how the handlers compose *)
Section SelectionMore.

Import FileSystem.

Lemma handleNext_step (a : App.State) (sel f : FileSystemFile) (i : Z) :
  App.selectedFile a = Some sel ->
  findIndex (App.sameName sel) (App.storeFiles a) = i ->
  (-1 <= i)%Z ->
  nth_error (App.storeFiles a) (Z.to_nat (i + 1)) = Some f ->
  App.handleNext a = App.setSelectedFile (Some f) a.
Proof.
  intros Hsel Hidx Hi Hf. unfold App.handleNext. rewrite Hsel, Hidx.
  assert (Z.to_nat (i + 1) < List.length (App.storeFiles a))%nat
    by (apply nth_error_Some; congruence).
  destruct (Z.ltb_spec i (Z.of_nat (List.length (App.storeFiles a)) - 1)); [|lia].
  now rewrite at_index_nth, Hf by lia.
Qed.

Lemma handlePrev_step (a : App.State) (sel f : FileSystemFile) (i : Z) :
  App.selectedFile a = Some sel ->
  findIndex (App.sameName sel) (App.storeFiles a) = i ->
  (0 < i)%Z ->
  nth_error (App.storeFiles a) (Z.to_nat (i - 1)) = Some f ->
  App.handlePrev a = App.setSelectedFile (Some f) a.
Proof.
  intros Hsel Hidx Hi Hf. unfold App.handlePrev. rewrite Hsel, Hidx.
  destruct (Z.ltb_spec 0 i); [|lia].
  now rewrite at_index_nth, Hf by lia.
Qed.

(** X21.  With distinct names in the listing and the selection found at
    position [i]: next followed by previous comes back to the file at [i]
    unless [i] is the last position, and previous followed by next comes back
    to it unless [i] is 0. *)
Theorem next_prev_undo_each_other (a : App.State) (sel : FileSystemFile) (i : Z) :
  App.selectedFile a = Some sel ->
  findIndex (App.sameName sel) (App.storeFiles a) = i ->
  (0 <= i)%Z ->
  NoDup (map fileName (App.storeFiles a)) ->
  ((i < Z.of_nat (List.length (App.storeFiles a)) - 1)%Z ->
   App.selectedFile (App.handlePrev (App.handleNext a)) =
   nth_error (App.storeFiles a) (Z.to_nat i)) /\
  ((0 < i)%Z ->
   App.selectedFile (App.handleNext (App.handlePrev a)) =
   nth_error (App.storeFiles a) (Z.to_nat i)).
Proof.
  intros Hsel Hidx Hpos Hnodup.
  destruct (findIndex_present _ _ _ Hidx Hpos) as (x & Hx & _ & Hlt).
  split; intros Hi.
  - destruct (nth_error_inside (App.storeFiles a) (i + 1)) as [f Hf]; [lia|].
    rewrite (handleNext_step a sel f i Hsel Hidx ltac:(lia) Hf).
    rewrite (handlePrev_step _ f x (i + 1)); cbn [App.selectedFile App.setSelectedFile].
    + now rewrite Hx.
    + reflexivity.
    + change (findIndex (App.sameName f) (App.storeFiles a) = (i + 1)%Z).
      rewrite (findIndex_sameName _ _ _ Hnodup Hf). lia.
    + lia.
    + change (nth_error (App.storeFiles a) (Z.to_nat (i + 1 - 1)) = Some x).
      now replace (i + 1 - 1)%Z with i by lia.
  - destruct (nth_error_inside (App.storeFiles a) (i - 1)) as [f Hf]; [lia|].
    rewrite (handlePrev_step a sel f i Hsel Hidx Hi Hf).
    rewrite (handleNext_step _ f x (i - 1)); cbn [App.selectedFile App.setSelectedFile].
    + now rewrite Hx.
    + reflexivity.
    + change (findIndex (App.sameName f) (App.storeFiles a) = (i - 1)%Z).
      rewrite (findIndex_sameName _ _ _ Hnodup Hf). lia.
    + lia.
    + change (nth_error (App.storeFiles a) (Z.to_nat (i - 1 + 1)) = Some x).
      now replace (i - 1 + 1)%Z with i by lia.
Qed.

Lemma next_prev_undo_each_other_witness :
  App.selectedFile (App.handlePrev (App.handleNext Demo.previewing)) =
  Some (mkFile "a.png" Demo.aPng image).
Proof.
  assert (Hnodup : NoDup (map fileName (App.storeFiles Demo.previewing)))
    by (repeat constructor; cbn; intuition discriminate).
  destruct (next_prev_undo_each_other Demo.previewing (mkFile "a.png" Demo.aPng image) 0
              eq_refl eq_refl (Z.le_refl 0) Hnodup) as [Hback _].
  exact (Hback eq_refl).
Defined.

Lemma findIndex_same_name (l : list FileSystemFile) (f g : FileSystemFile) :
  fileName f = fileName g -> findIndex (App.sameName f) l = findIndex (App.sameName g) l.
Proof.
  intros Hname. unfold findIndex. generalize 0%Z.
  induction l as [|x l IH]; intros i; cbn [findIndexFrom]; [reflexivity|].
  unfold App.sameName at 1 3. rewrite Hname. now rewrite IH.
Qed.

(** X22.  With distinct names in the listing, a click on the thumbnail at
    position [k] followed by next selects the file at position [k + 1], with
    the preview open, whatever was selected before the click. *)
Theorem click_then_next (a : App.State) (k : nat) (file following : FileSystemFile) :
  NoDup (map fileName (App.storeFiles a)) ->
  nth_error (App.storeFiles a) k = Some file ->
  nth_error (App.storeFiles a) (S k) = Some following ->
  App.selectedFile (App.handleNext (App.handleImageClick file a)) = Some following /\
  App.isPreviewOpen (App.handleNext (App.handleImageClick file a)) = true.
Proof.
  intros Hnodup Hfile Hnext.
  assert (Hclicked : exists s, App.selectedFile (App.handleImageClick file a) = Some s /\
                               fileName s = fileName file /\
                               App.storeFiles (App.handleImageClick file a) = App.storeFiles a /\
                               App.isPreviewOpen (App.handleImageClick file a) = true).
  { unfold App.handleImageClick. destruct (App.selectedFile a) as [sel|] eqn:Hsel.
    - destruct (String.eqb_spec (fileName sel) (fileName file)) as [Heq|_].
      + exists sel. cbn. now rewrite Hsel.
      + exists file. now cbn.
    - exists file. now cbn. }
  destruct Hclicked as (s & Hs & Hname & Hfiles & Hopen).
  rewrite (handleNext_step _ s following (Z.of_nat k) Hs).
  - cbn. split; [reflexivity|exact Hopen].
  - rewrite Hfiles, (findIndex_same_name _ s file Hname). now apply findIndex_sameName.
  - lia.
  - rewrite Hfiles. now replace (Z.to_nat (Z.of_nat k + 1)) with (S k) by lia.
Qed.

Lemma click_then_next_witness :
  App.selectedFile
    (App.handleNext (App.handleImageClick (mkFile "a.png" Demo.aPng image) Demo.atPhotos)) =
  Some (mkFile "B.JPG" Demo.bJpg image).
Proof.
  assert (Hnodup : NoDup (map fileName (App.storeFiles Demo.atPhotos)))
    by (repeat constructor; cbn; intuition discriminate).
  apply (click_then_next Demo.atPhotos 0 (mkFile "a.png" Demo.aPng image)
           (mkFile "B.JPG" Demo.bJpg image) Hnodup eq_refl eq_refl).
Defined.

(** X23.  A key pressed in the preview panel never touches the hook or the
    store.  Escape closes the preview and drops the selection; once that is
    done no key has any effect; and keys other than Escape and the two arrows
    never have any. *)
Theorem keydown_effects (key : string) (a : App.State) :
  App.hook (PreviewPanel.handleKeyDown key a) = App.hook a /\
  App.store (PreviewPanel.handleKeyDown key a) = App.store a /\
  (App.isPreviewOpen a = true ->
   App.selectedFile (PreviewPanel.handleKeyDown "Escape" a) = None /\
   App.isPreviewOpen (PreviewPanel.handleKeyDown "Escape" a) = false) /\
  PreviewPanel.handleKeyDown key (PreviewPanel.handleKeyDown "Escape" a) =
    PreviewPanel.handleKeyDown "Escape" a /\
  (key <> "Escape"%string -> key <> "ArrowLeft"%string -> key <> "ArrowRight"%string ->
   PreviewPanel.handleKeyDown key a = a).
Proof.
  assert (Hsame : forall k b,
            App.hook (PreviewPanel.handleKeyDown k b) = App.hook b /\
            App.store (PreviewPanel.handleKeyDown k b) = App.store b).
  { intros k b. unfold PreviewPanel.handleKeyDown.
    destruct (negb (App.isPreviewOpen b)); [now split|].
    destruct (App.selectedFile b).
    - destruct (String.eqb k "ArrowRight"), (String.eqb k "ArrowLeft"), (String.eqb k "Escape");
        repeat match goal with
        | |- context [App.handleNext ?x] =>
            let sel := fresh "sel" in destruct (handleNext_shape x) as (sel & -> & _)
        | |- context [App.handlePrev ?x] =>
            let sel := fresh "sel" in destruct (handlePrev_shape x) as (sel & -> & _)
        end; now split.
    - destruct (String.eqb k "Escape"); now split. }
  assert (Hescape : App.isPreviewOpen a = true ->
            PreviewPanel.handleKeyDown "Escape" a = App.handleClose a).
  { intros Hopen. unfold PreviewPanel.handleKeyDown. rewrite Hopen. cbn [negb].
    destruct (App.selectedFile a); reflexivity. }
  destruct (Hsame key a) as [Hhook Hstore].
  split; [exact Hhook|]. split; [exact Hstore|]. split; [|split].
  - intros Hopen. rewrite (Hescape Hopen). now split.
  - destruct (App.isPreviewOpen a) eqn:Hopen.
    + rewrite (Hescape eq_refl). unfold PreviewPanel.handleKeyDown at 1. reflexivity.
    + unfold PreviewPanel.handleKeyDown. rewrite Hopen. cbn [negb]. now rewrite Hopen.
  - intros Hesc Hleft Hright. unfold PreviewPanel.handleKeyDown.
    apply String.eqb_neq in Hesc, Hleft, Hright. rewrite Hesc, Hleft, Hright.
    destruct (negb (App.isPreviewOpen a)); [reflexivity|].
    now destruct (App.selectedFile a).
Qed.

(** X24.  In auto mode the preview's background is the checkerboard unless
    the file could be read and its analysis resolved with transparency
    found: a failed read, a rejected analysis and an image without
    transparency all fall back to it. *)
Theorem auto_background (file : Completion (Completion ColorAnalysis.Canvas)) :
  PreviewPanel.mode PreviewPanel.auto (PreviewPanel.analysisAfterLoad file) <>
    ColorAnalysis.checkerboard ->
  exists src r, file = Returned src /\
                ColorAnalysis.analyzeImage src = Resolved r /\
                ColorAnalysis.hasTransparency r = true /\
                PreviewPanel.mode PreviewPanel.auto (PreviewPanel.analysisAfterLoad file) =
                  (if ColorAnalysis.isDark r then ColorAnalysis.light else ColorAnalysis.dark).
Proof.
  unfold PreviewPanel.analysisAfterLoad, PreviewPanel.mode.
  destruct file as [src|e]; [|intros H; now destruct H].
  destruct (ColorAnalysis.analyzeImage src) as [r|e] eqn:Hres; [|intros H; now destruct H].
  destruct (analyzeImage_resolved _ _ Hres) as (width & height & t & ->).
  rewrite classify_suggest. unfold ColorAnalysis.suggest.
  destruct (ColorAnalysis.hasTransparency (ColorAnalysis.classify width height t)) eqn:Ht;
    [|intros H; now destruct H].
  intros _. exists src. eexists. split; [reflexivity|]. split; [exact Hres|].
  split; [exact Ht|]. reflexivity.
Qed.

Lemma auto_background_witness :
  PreviewPanel.mode PreviewPanel.auto
    (PreviewPanel.analysisAfterLoad (Returned (Returned Samples.clear4x4))) = ColorAnalysis.light.
Proof.
  destruct (auto_background (Returned (Returned Samples.clear4x4)))
    as (src & r & Hfile & Hres & _ & Hmode).
  - vm_compute. discriminate.
  - rewrite Hmode. injection Hfile as <-. vm_compute in Hres. injection Hres as <-. reflexivity.
Defined.

End SelectionMore.

(** * The colour analyser: uniform images and pixel order *)
Section ColorAnalysisMore.

Import ColorAnalysis.
Local Open Scope float_scope.

Lemma transparentCount_all (data : list Pixel) :
  (forall p, In p data -> (alpha p < 10)%Z) ->
  transparentCount data = Z.of_nat (List.length data).
Proof.
  intros Hall. unfold transparentCount. f_equal. f_equal.
  induction data as [|p data IH]; [reflexivity|]. cbn [filter].
  assert (Hp : (alpha p <? 10)%Z = true) by (apply Z.ltb_lt, Hall; now left).
  rewrite Hp. cbn [List.length]. f_equal. apply IH. intros q Hq. apply Hall. now right.
Qed.

Lemma transparentCount_none (data : list Pixel) :
  (forall p, In p data -> (10 <= alpha p)%Z) -> transparentCount data = 0%Z.
Proof.
  intros Hall. unfold transparentCount.
  induction data as [|p data IH]; [reflexivity|]. cbn [filter].
  assert (Hp : (alpha p <? 10)%Z = false) by (apply Z.ltb_ge, Hall; now left).
  rewrite Hp. apply IH. intros q Hq. apply Hall. now right.
Qed.

(** A resolved analysis of an image that needs no scaling. *)
Lemma analyzeImage_unscaled (c : Canvas) (data : list Pixel) (r : ImageAnalysisResult) :
  (0 <= imgWidth c <= 100)%Z -> (0 <= imgHeight c <= 100)%Z ->
  getImageData c (num (imgWidth c)) (num (imgHeight c)) = Returned data ->
  analyzeImage (Returned c) = Resolved r ->
  r = classify (num (imgWidth c)) (num (imgHeight c)) (scan data).
Proof.
  intros Hw Hh Hdata. cbn [analyzeImage]. unfold onload.
  destruct (negb (hasContext c)); [discriminate|].
  rewrite (scaledSize_small _ _ Hw Hh), Hdata. now intros [= <-].
Qed.

(** X25.  An image of at most 100 x 100, not empty, all of whose pixels
    have alpha below 10, is classified as transparent and dark, with average
    luminance 0, and the background suggested is [light]. *)
Theorem fully_transparent_classification (c : Canvas) (data : list Pixel)
  (r : ImageAnalysisResult) :
  (1 <= imgWidth c <= 100)%Z -> (1 <= imgHeight c <= 100)%Z ->
  getImageData c (num (imgWidth c)) (num (imgHeight c)) = Returned data ->
  Z.of_nat (List.length data) = (imgWidth c * imgHeight c)%Z ->
  (forall p, In p data -> (alpha p < 10)%Z) ->
  analyzeImage (Returned c) = Resolved r ->
  hasTransparency r = true /\ isDark r = true /\
  averageLuminance r = 0 /\ suggestedBackground r = light.
Proof.
  intros Hw Hh Hdata Hlen Hall Hres.
  assert (Ht : hasTransparency r = true).
  { apply (hasTransparency_unscaled c data r); try assumption; try lia.
    rewrite (transparentCount_all data Hall). nia. }
  assert (Hr := analyzeImage_unscaled c data r ltac:(lia) ltac:(lia) Hdata Hres).
  assert (Hscan : scan data = mkTally 0 0 (Z.of_nat (List.length data))).
  { unfold scan. now rewrite fold_step_transparent. }
  assert (Hdark : isDark r = true /\ averageLuminance r = 0).
  { rewrite Hr, Hscan. split; reflexivity. }
  destruct Hdark as [Hdark Havg].
  repeat split; try assumption.
  rewrite Hr, classify_suggest, <- Hr, Ht, Hdark. reflexivity.
Qed.

Lemma fully_transparent_classification_witness :
  analyzeImage (Returned Samples.clear4x4) = Resolved (mkResult true true light 0) /\
  suggestedBackground (mkResult true true light 0) = light.
Proof.
  split; [vm_compute; reflexivity|].
  apply (fully_transparent_classification Samples.clear4x4 (repeat clearPx 16)
           (mkResult true true light 0)).
  - cbn; lia.
  - cbn; lia.
  - reflexivity.
  - reflexivity.
  - intros p Hp. apply repeat_spec in Hp. subst p. cbn. lia.
  - vm_compute; reflexivity.
Defined.

(** X26.  An image of at most 100 x 100 none of whose pixels has alpha
    below 10 is classified as without transparency, and the background
    suggested is the checkerboard whatever its brightness. *)
Theorem fully_opaque_classification (c : Canvas) (data : list Pixel)
  (r : ImageAnalysisResult) :
  (0 <= imgWidth c <= 100)%Z -> (0 <= imgHeight c <= 100)%Z ->
  getImageData c (num (imgWidth c)) (num (imgHeight c)) = Returned data ->
  Z.of_nat (List.length data) = (imgWidth c * imgHeight c)%Z ->
  (forall p, In p data -> (10 <= alpha p)%Z) ->
  analyzeImage (Returned c) = Resolved r ->
  hasTransparency r = false /\ suggestedBackground r = checkerboard.
Proof.
  intros Hw Hh Hdata Hlen Hall Hres.
  assert (Ht : hasTransparency r = false).
  { destruct (hasTransparency r) eqn:Ht; [|reflexivity].
    apply (hasTransparency_unscaled c data r) in Ht; try assumption.
    rewrite (transparentCount_none data Hall) in Ht. lia. }
  split; [exact Ht|].
  assert (Hr := analyzeImage_unscaled c data r Hw Hh Hdata Hres).
  rewrite Hr, classify_suggest, <- Hr, Ht. reflexivity.
Qed.

Lemma fully_opaque_classification_witness :
  analyzeImage (Returned Samples.opaque4x4) = Resolved (mkResult false false checkerboard 255) /\
  suggestedBackground (mkResult false false checkerboard 255) = checkerboard.
Proof.
  split; [vm_compute; reflexivity|].
  apply (fully_opaque_classification Samples.opaque4x4 (repeat whitePx 16)
           (mkResult false false checkerboard 255)).
  - cbn; lia.
  - cbn; lia.
  - reflexivity.
  - reflexivity.
  - intros p Hp. apply repeat_spec in Hp. subst p. cbn. lia.
  - vm_compute; reflexivity.
Defined.

Lemma transparentCount_permutation (data data' : list Pixel) :
  Permutation data data' -> transparentCount data = transparentCount data'.
Proof.
  intros Hperm. unfold transparentCount. f_equal.
  apply Permutation_length. clear -Hperm.
  induction Hperm as [|x l l' _ IH|x y l|l l' l'' _ IH1 _ IH2]; cbn [filter].
  - constructor.
  - destruct (alpha x <? 10)%Z; [now constructor|exact IH].
  - destruct (alpha x <? 10)%Z, (alpha y <? 10)%Z; try reflexivity. apply perm_swap.
  - now transitivity (filter (fun p => (alpha p <? 10)%Z) l').
Qed.

(** X27.  Whether an image counts as transparent does not depend on where
    its pixels are: two rasters of an image of the same size with the same
    pixels in another order get the same [hasTransparency]. *)
Theorem hasTransparency_ignores_order (c c' : Canvas) (data data' : list Pixel)
  (r r' : ImageAnalysisResult) :
  imgWidth c = imgWidth c' -> imgHeight c = imgHeight c' ->
  getImageData c (fst (scaledSize (imgWidth c) (imgHeight c)))
                 (snd (scaledSize (imgWidth c) (imgHeight c))) = Returned data ->
  getImageData c' (fst (scaledSize (imgWidth c') (imgHeight c')))
                  (snd (scaledSize (imgWidth c') (imgHeight c'))) = Returned data' ->
  Permutation data data' ->
  analyzeImage (Returned c) = Resolved r ->
  analyzeImage (Returned c') = Resolved r' ->
  hasTransparency r = hasTransparency r'.
Proof.
  intros Hw Hh Hdata Hdata' Hperm Hres Hres'.
  rewrite (hasTransparency_threshold c data r Hdata Hres),
          (hasTransparency_threshold c' data' r' Hdata' Hres').
  now rewrite Hw, Hh, (transparentCount_permutation _ _ Hperm).
Qed.

Lemma hasTransparency_ignores_order_witness :
  hasTransparency (mkResult true false dark 255) = hasTransparency (mkResult true false dark 255).
Proof.
  apply (hasTransparency_ignores_order
           (canvasOf 2 2 [clearPx; whitePx; whitePx; clearPx])
           (canvasOf 2 2 [whitePx; clearPx; clearPx; whitePx])
           [clearPx; whitePx; whitePx; clearPx] [whitePx; clearPx; clearPx; whitePx]).
  - reflexivity.
  - reflexivity.
  - reflexivity.
  - reflexivity.
  - apply perm_trans with [whitePx; clearPx; whitePx; clearPx].
    + apply perm_swap.
    + apply perm_skip, perm_skip, perm_swap.
  - vm_compute; reflexivity.
  - vm_compute; reflexivity.
Defined.

End ColorAnalysisMore.
